(** * The event dispatcher of manim/event_handler/event_dispatcher.py

    A shallow embedding of [EventDispatcher]: the registry of listeners, the
    interaction state it derives from the events it is given, and the
    [dispatch] protocol with its stop-propagation rule.

    Python objects that the dispatcher only holds references to (scene
    objects, callbacks) are identifiers; what they do is given by the two
    capabilities the dispatcher calls, [is_point_touching] and [call], which
    are variables of the development.  Callbacks are effectful: they act on
    the scene (a [World]) and either return a Python value or raise.  They
    do not re-enter the dispatcher. *)

From Stdlib Require Import String QArith FunInd Recdef.
From stdpp Require Import base list gmap.

(** ** Event types *)

(** Modelled from the spec: the [EventType] enumeration of
    manim/event_handler/event_type.py, which is not among the sources.  The
    spec lists pointer motion, drag, press and release, key press and
    release, and names scroll as a further pointer category; every member
    carries a [value] string whose prefix ("mouse" or "key") is its coarse
    class. *)
Inductive EventType :=
  | MouseMotionEvent
  | MousePressEvent
  | MouseReleaseEvent
  | MouseDragEvent
  | MouseScrollEvent
  | KeyPressEvent
  | KeyReleaseEvent.

#[global] Instance EventType_eq_dec : EqDecision EventType.
Proof. solve_decision. Defined.

Definition value (t : EventType) : string :=
  match t with
  | MouseMotionEvent => "mouse_motion_event"
  | MousePressEvent => "mouse_press_event"
  | MouseReleaseEvent => "mouse_release_event"
  | MouseDragEvent => "mouse_drag_event"
  | MouseScrollEvent => "mouse_scroll_event"
  | KeyPressEvent => "key_press_event"
  | KeyReleaseEvent => "key_release_event"
  end.

(** [for event_type in EventType]: the members in definition order. *)
Definition all_event_types : list EventType :=
  [ MouseMotionEvent; MousePressEvent; MouseReleaseEvent; MouseDragEvent;
    MouseScrollEvent; KeyPressEvent; KeyReleaseEvent ].

(** [s.startswith(p)] *)
Definition startswith (s p : string) : bool := String.prefix p s.

(** ** Python values that cross the dispatcher *)

(** A point is a numpy array of three floats; the dispatcher stores points
    and hands them to hit tests, it never computes with them. *)
Record Point := mkPoint { px : Q; py : Q; pz : Q }.

(** [np.array((0.0, 0.0, 0.0))] *)
Definition origin : Point := mkPoint 0 0 0.

(** Key symbols are the integers of the windowing layer. *)
Definition Symbol := Z.

(** What a callback may return: [None], a boolean, or some other object. *)
Inductive PyValue :=
  | PyNone
  | PyBool (b : bool)
  | PyOther (n : Z).

#[global] Instance PyValue_eq_dec : EqDecision PyValue.
Proof. solve_decision. Defined.

(** [v is not None and v is False]: identity with the [False] singleton, so
    neither [None], [True] nor a falsy object such as [0] satisfies it. *)
Definition is_False (v : PyValue) : bool :=
  match v with
  | PyBool false => true
  | _ => false
  end.

Inductive PyExc :=
  | KeyError (key : string)
  | ValueError
  | OtherError (tag : Z).

(** The keyword arguments of [dispatch]: a dict in which [point] and
    [symbol] may each be present or not; the other entries are passed on to
    the callbacks untouched. *)
Record EventData := mkEventData {
  point : option Point;
  symbol : option Symbol;
  extra : list (string * Z)
}.

(** The payloads [{point: p}] and [{symbol: k}]. *)
Definition at_point (p : Point) : EventData := mkEventData (Some p) None [].
Definition with_symbol (k : Symbol) : EventData := mkEventData None (Some k) [].

(** The result of running a piece of code: a value, or a raised exception. *)
Inductive Res (A : Type) :=
  | Val (a : A)
  | Exc (e : PyExc).
Arguments Val {A} a.
Arguments Exc {A} e.

Section Dispatcher.

(** References to scene objects and to callbacks, compared by identity. *)
Context {Mobject : Type} `{EqDecision Mobject}.
Context {Callback : Type} `{EqDecision Callback}.

(** The scene the callbacks act on. *)
Context {World : Type}.

(** [mobject.is_point_touching(point)], a side-effect-free predicate on the
    current state of the scene. *)
Variable is_point_touching : World → Mobject → Point → bool.

(** [callback(mobject, event_data)]: what it returns or raises, and the
    scene it leaves. *)
Variable call : Callback → Mobject → EventData → World → Res PyValue * World.

(** Modelled from the spec: the [EventListner] record of
    manim/event_handler/event_listener.py, which is not among the sources:
    one event type, one target, one callback; two entries compare equal
    when the three agree. *)
Record EventListner := mkEventListner {
  mobject : Mobject;
  event_type : EventType;
  callback : Callback
}.

#[global] Instance EventListner_eq_dec : EqDecision EventListner.
Proof. solve_decision. Defined.

(** The fields of [EventDispatcher.__init__].  [event_listeners] is a dict
    created with every member of [EventType] as a key and never given or
    denied a key afterwards, hence a total function. *)
Record EventDispatcher := mkEventDispatcher {
  event_listeners : EventType → list EventListner;
  mouse_point : Point;
  mouse_drag_point : Point;
  pressed_keys : gset Symbol;
  draggable_object_listeners : list EventListner
}.

Definition init : EventDispatcher :=
  {| event_listeners := λ _, [];
     mouse_point := origin;
     mouse_drag_point := origin;
     pressed_keys := ∅;
     draggable_object_listeners := [] |}.

(** One iteration of a propagation loop, kept as a record of what the
    dispatch did: the listener it reached, the scene at that moment, and
    what happened: the hit test failed, or the callback ran. *)
Inductive Step :=
  | Missed
  | Returned (v : PyValue)
  | Raised (e : PyExc).

Record Visit := mkVisit {
  who : EventListner;
  seen : World;
  did : Step
}.

(** The state a call runs in: the dispatcher object and the scene. *)
Record State := mkState {
  self : EventDispatcher;
  scene : World
}.

(** ** State, exceptions and the log of visits

    A computation runs from a state to a result, the state it leaves and
    the visits it made; what was assigned before an exception stays
    assigned. *)
Record Run (A : Type) := mkRun {
  result : Res A;
  final : State;
  visited : list Visit
}.
Arguments mkRun {A} _ _ _.
Arguments result {A} _.
Arguments final {A} _.
Arguments visited {A} _.

Definition M (A : Type) : Type := State → Run A.

#[global] Instance M_ret : MRet M := λ A a s, mkRun (Val a) s [].

#[global] Instance M_bind : MBind M := λ A B k c s,
  let r := c s in
  match result r with
  | Val a => let r' := k a (final r) in
             mkRun (result r') (final r') (visited r ++ visited r')
  | Exc e => mkRun (Exc e) (final r) (visited r)
  end.

Definition raise {A} (e : PyExc) : M A := λ s, mkRun (Exc e) s [].

(** [try: c  except Exception: pass] *)
Definition try_pass (c : M unit) : M unit :=
  λ s, let r := c s in
       match result r with
       | Val a => r
       | Exc _ => mkRun (Val tt) (final r) (visited r)
       end.

Definition get_self : M EventDispatcher := λ s, mkRun (Val (self s)) s [].

Definition put_self (d : EventDispatcher) : M unit :=
  λ s, mkRun (Val tt) (mkState d (scene s)) [].

Definition get_scene : M World := λ s, mkRun (Val (scene s)) s [].

Definition log (v : Visit) : M unit := λ s, mkRun (Val tt) s [v].

(** [event_data["point"]], [event_data["symbol"]] *)
Definition data_point (data : EventData) : M Point :=
  match point data with
  | Some p => mret p
  | None => raise (KeyError "point")
  end.

Definition data_symbol (data : EventData) : M Symbol :=
  match symbol data with
  | Some s => mret s
  | None => raise (KeyError "symbol")
  end.

(** ** Field assignments *)

Definition set_event_listeners (t : EventType) (l : list EventListner)
    (d : EventDispatcher) : EventDispatcher :=
  {| event_listeners := λ t', if decide (t' = t) then l else event_listeners d t';
     mouse_point := mouse_point d;
     mouse_drag_point := mouse_drag_point d;
     pressed_keys := pressed_keys d;
     draggable_object_listeners := draggable_object_listeners d |}.

Definition set_mouse_point (p : Point) (d : EventDispatcher) : EventDispatcher :=
  {| event_listeners := event_listeners d;
     mouse_point := p;
     mouse_drag_point := mouse_drag_point d;
     pressed_keys := pressed_keys d;
     draggable_object_listeners := draggable_object_listeners d |}.

Definition set_mouse_drag_point (p : Point) (d : EventDispatcher) : EventDispatcher :=
  {| event_listeners := event_listeners d;
     mouse_point := mouse_point d;
     mouse_drag_point := p;
     pressed_keys := pressed_keys d;
     draggable_object_listeners := draggable_object_listeners d |}.

Definition set_pressed_keys (k : gset Symbol) (d : EventDispatcher) : EventDispatcher :=
  {| event_listeners := event_listeners d;
     mouse_point := mouse_point d;
     mouse_drag_point := mouse_drag_point d;
     pressed_keys := k;
     draggable_object_listeners := draggable_object_listeners d |}.

Definition set_draggable_object_listeners (l : list EventListner)
    (d : EventDispatcher) : EventDispatcher :=
  {| event_listeners := event_listeners d;
     mouse_point := mouse_point d;
     mouse_drag_point := mouse_drag_point d;
     pressed_keys := pressed_keys d;
     draggable_object_listeners := l |}.

(** ** Registry *)

(** [add_listener]: append to the list of the listener's event type. *)
Definition add_listener (el : EventListner) : M unit :=
  d ← get_self;
  put_self (set_event_listeners (event_type el)
              (event_listeners d (event_type el) ++ [el]) d).

(** [list.remove(x)]: drop the first element equal to [x]; [ValueError]
    when there is none. *)
Fixpoint list_remove (x : EventListner) (l : list EventListner)
    : option (list EventListner) :=
  match l with
  | [] => None
  | y :: l' =>
      if decide (y = x) then Some l'
      else match list_remove x l' with
           | Some r => Some (y :: r)
           | None => None
           end
  end.

(** The [while] loop of [remove_listener]: as long as the listener is in
    the list of its event type, remove its first occurrence from that list,
    in place. *)
Function remove_while (el : EventListner) (s : State)
    {measure (λ s, length (event_listeners (self s) (event_type el))) s} : Run unit :=
  if bool_decide (el ∈ event_listeners (self s) (event_type el)) then
    match list_remove el (event_listeners (self s) (event_type el)) with
    | Some l' =>
        remove_while el
          (mkState (set_event_listeners (event_type el) l' (self s)) (scene s))
    | None => mkRun (Exc ValueError) s []
    end
  else mkRun (Val tt) s [].
Proof.
  intros el s _ l' Hrm. simpl. rewrite decide_True by done.
  revert l' Hrm.
  induction (event_listeners (self s) (event_type el)) as [|y l IH];
    intros l'; simpl; [discriminate|].
  destruct (decide (y = el)); [intros [= <-]; lia|].
  destruct (list_remove el l) as [r|] eqn:E; [|discriminate].
  intros [= <-]. simpl. specialize (IH r eq_refl). lia.
Defined.

(** [remove_listener]: the loop under [try ... except Exception: pass]. *)
Definition remove_listener (el : EventListner) : M unit :=
  try_pass (remove_while el).

(** [get_listeners_count]: the sum of the lengths over the dict's items. *)
Definition get_listeners_count (d : EventDispatcher) : nat :=
  sum_list ((λ t, length (event_listeners d t)) <$> all_event_types).

(** ** State queries *)

Definition get_mouse_point (d : EventDispatcher) : Point := mouse_point d.
Definition get_mouse_drag_point (d : EventDispatcher) : Point := mouse_drag_point d.
Definition is_key_pressed (s : Symbol) (d : EventDispatcher) : bool :=
  bool_decide (s ∈ pressed_keys d).

(** ** Dispatch *)

(** Lines 32-47: the state update, by event type. *)
Definition update_state (ty : EventType) (data : EventData) : M unit :=
  match ty with
  | MouseMotionEvent =>
      p ← data_point data;
      d ← get_self;
      put_self (set_mouse_point p d)
  | MouseDragEvent =>
      p ← data_point data;
      d ← get_self;
      put_self (set_mouse_drag_point p d)
  | KeyPressEvent =>
      k ← data_symbol data;
      d ← get_self;
      put_self (set_pressed_keys (pressed_keys d ∪ {[k]}) d)
  | KeyReleaseEvent =>
      k ← data_symbol data;
      d ← get_self;
      put_self (set_pressed_keys (pressed_keys d ∖ {[k]}) d)
  | MousePressEvent =>
      d ← get_self;
      w ← get_scene;
      put_self (set_draggable_object_listeners
                  (filter (λ l, is_point_touching w (mobject l) (mouse_point d) = true)
                          (event_listeners d MouseDragEvent)) d)
  | MouseReleaseEvent =>
      d ← get_self;
      put_self (set_draggable_object_listeners [] d)
  | MouseScrollEvent => mret tt
  end.

(** [listener.callback(listener.mobject, event_data)] *)
Definition invoke (l : EventListner) (data : EventData) : M PyValue :=
  λ s, let '(r, w) := call (callback l) (mobject l) data (scene s) in
       mkRun r (mkState (self s) w)
             [mkVisit l (scene s)
                      match r with Val v => Returned v | Exc e => Raised e end].

(** Lines 52-56 and 66-69: the loop over the captured drag listeners, and
    the loop over the listeners of a key event.  [propagate_event] is the
    value the variable holds when the loop reaches [ls]. *)
Fixpoint call_each (ls : list EventListner) (data : EventData)
    (propagate_event : PyValue) : M PyValue :=
  match ls with
  | [] => mret propagate_event
  | l :: ls' =>
      r ← invoke l data;
      if is_False r then mret r
      else call_each ls' data r
  end.

(** Lines 59-63: the loop over the listeners of a mouse event other than
    a drag, each tested against [self.mouse_point] when it is reached. *)
Fixpoint call_touching (ls : list EventListner) (data : EventData)
    (propagate_event : PyValue) : M PyValue :=
  match ls with
  | [] => mret propagate_event
  | l :: ls' =>
      d ← get_self;
      w ← get_scene;
      if is_point_touching w (mobject l) (mouse_point d) then
        r ← invoke l data;
        if is_False r then mret r
        else call_touching ls' data r
      else
        log (mkVisit l w Missed);;
        call_touching ls' data propagate_event
  end.

(** Lines 49-71. *)
Definition propagate (ty : EventType) (data : EventData) : M PyValue :=
  if decide (ty = MouseDragEvent) then
    d ← get_self;
    call_each (draggable_object_listeners d) data PyNone
  else if startswith (value ty) "mouse" then
    d ← get_self;
    call_touching (event_listeners d ty) data PyNone
  else if startswith (value ty) "key" then
    d ← get_self;
    call_each (event_listeners d ty) data PyNone
  else mret PyNone.

Definition dispatch (ty : EventType) (data : EventData) : M PyValue :=
  update_state ty data;;
  propagate ty data.

(** ** Sequences of calls

    What the host does with the dispatcher, one call after the other; an
    exception ends the call that raised it, not the session. *)
Inductive Op :=
  | Add (el : EventListner)
  | Remove (el : EventListner)
  | Dispatch (ty : EventType) (data : EventData).

Definition run_op (o : Op) (s : State) : State :=
  match o with
  | Add el => final (add_listener el s)
  | Remove el => final (remove_listener el s)
  | Dispatch ty data => final (dispatch ty data s)
  end.

Definition run_ops (os : list Op) (s : State) : State :=
  foldl (λ s o, run_op o s) s os.

(** ** Reading a log of visits *)

(** The visit ended the loop: the callback returned [False], or raised. *)
Definition stops (v : Visit) : bool :=
  match did v with
  | Returned r => is_False r
  | Raised _ => true
  | Missed => false
  end.

(** The visit ran the listener's callback. *)
Definition ran (v : Visit) : bool :=
  match did v with
  | Missed => false
  | _ => true
  end.

(** The listeners whose callbacks a run invoked, in order. *)
Definition invoked (vs : list Visit) : list EventListner :=
  who <$> filter (λ v, ran v = true) vs.

(** The value of [propagate_event] after the visits [vs], from [acc]:
    every return of a callback is assigned to it, [None] included. *)
Definition running (acc : PyValue) (vs : list Visit) : PyValue :=
  foldl (λ a v, match did v with Returned r => r | _ => a end) acc vs.

Definition returned (v : Visit) : PyValue :=
  match did v with
  | Returned r => r
  | _ => PyNone
  end.

(** The value returned by the last callback invoked, [None] when no
    callback was invoked. *)
Definition last_returned (vs : list Visit) : PyValue :=
  match last (filter (λ v, ran v = true) vs) with
  | Some v => returned v
  | None => PyNone
  end.

(** The last value returned that is not [None], [None] when there is no
    such value: the result of a dispatch as the specification words it. *)
Definition last_non_null (vs : list Visit) : PyValue :=
  match last (filter (λ v, returned v ≠ PyNone) vs) with
  | Some v => returned v
  | None => PyNone
  end.

(** How a propagation loop walks its listeners [ls]: one visit each, in
    order, up to and including the first visit that stops. *)
Inductive Trail : list EventListner → list Visit → Prop :=
  | Trail_end : Trail [] []
  | Trail_stop l ls v :
      who v = l → stops v = true → Trail (l :: ls) [v]
  | Trail_next l ls v vs :
      who v = l → stops v = false → Trail ls vs → Trail (l :: ls) (v :: vs).

(** What a loop that made the visits [vs] returns or raises. *)
Definition outcome (acc : PyValue) (vs : list Visit) : Res PyValue :=
  match last vs with
  | Some v =>
      match did v with
      | Raised e => Exc e
      | _ => Val (running acc vs)
      end
  | None => Val acc
  end.

(** The event types whose listeners are hit-tested when they are walked:
    the mouse events other than the drag. *)
Definition hit_tested (ty : EventType) : bool :=
  if decide (ty = MouseDragEvent) then false else startswith (value ty) "mouse".

(** The key that the state update of [ty] reads from the payload and does
    not find there. *)
Definition missing_key (ty : EventType) (data : EventData) : option string :=
  match ty with
  | MouseMotionEvent | MouseDragEvent =>
      match point data with Some _ => None | None => Some "point"%string end
  | KeyPressEvent | KeyReleaseEvent =>
      match symbol data with Some _ => None | None => Some "symbol"%string end
  | _ => None
  end.

(** How often [el] occurs in [l]. *)
Definition occurrences (el : EventListner) (l : list EventListner) : nat :=
  length (filter (λ x, x = el) l).

(** The listeners a dispatch of [ty] walks.  The state update of a press
    assigns the captured listeners but a press walks the registry, and
    that of a drag leaves the captured listeners as they are. *)
Definition candidates (ty : EventType) (d : EventDispatcher) : list EventListner :=
  if decide (ty = MouseDragEvent) then draggable_object_listeners d
  else event_listeners d ty.

(** ** What a sequence of calls leaves, and what a log records *)


(** The same for the drag point and the drags. *)
Definition drag_point_after (p : Point) (ops : list Op) : Point :=
  foldl (λ p o, match o with
                | Dispatch MouseDragEvent data => default p (point data)
                | _ => p
                end) p ops.

(** The keys held after the calls [ops], from [keys]. *)
Definition keys_after (keys : gset Symbol) (ops : list Op) : gset Symbol :=
  foldl (λ keys o, match o with
                   | Dispatch KeyPressEvent data =>
                       match symbol data with
                       | Some k => keys ∪ {[k]}
                       | None => keys
                       end
                   | Dispatch KeyReleaseEvent data =>
                       match symbol data with
                       | Some k => keys ∖ {[k]}
                       | None => keys
                       end
                   | _ => keys
                   end) keys ops.

(** What a visit records of the result of a call. *)
Definition step_of (r : Res PyValue) : Step :=
  match r with
  | Val v => Returned v
  | Exc e => Raised e
  end.

(** The scene after the visits [vs], from [w]: each visit that ran its
    callback leaves the scene that call leaves. *)
Definition scene_after (data : EventData) (w : World) (vs : list Visit) : World :=
  foldl (λ w v, if ran v
                then (call (callback (who v)) (mobject (who v)) data w).2
                else w) w vs.

(** The visits [vs] are what calling the callbacks one after the other,
    from the scene [w] and with the payload [data], gives: each visit sees
    the scene the visits before it left, and a visit that ran records what
    the callback of its listener returned or raised for the target of its
    listener. *)
Fixpoint faithful (data : EventData) (w : World) (vs : list Visit) : Prop :=
  match vs with
  | [] => True
  | v :: vs' =>
      seen v = w ∧
      if ran v
      then did v = step_of (call (callback (who v)) (mobject (who v)) data w).1 ∧
           faithful data (call (callback (who v)) (mobject (who v)) data w).2 vs'
      else faithful data w vs'
  end.

End Dispatcher.

Arguments EventListner : clear implicits.
Arguments EventDispatcher : clear implicits.
Arguments Visit : clear implicits.
Arguments State : clear implicits.
Arguments Run : clear implicits.
Arguments Op : clear implicits.
Arguments mkRun {Mobject Callback World A} _ _ _.
Arguments result {Mobject Callback World A} _.
Arguments final {Mobject Callback World A} _.
Arguments visited {Mobject Callback World A} _.

(** * A concrete stage

    Two squares of side 2, [T1] centred on the origin and [T2] on (5, 5),
    and five callbacks that count their calls in the scene. *)
Module Stage.

Inductive Mobject := T1 | T2.

#[global] Instance Mobject_eq_dec : EqDecision Mobject.
Proof. solve_decision. Defined.

Inductive Callback := SayNothing | SayTrue | SayFalse | SayZero | Fail.

#[global] Instance Callback_eq_dec : EqDecision Callback.
Proof. solve_decision. Defined.

(** The scene: how many callbacks have run. *)
Definition World := nat.

Definition within (c x : Q) : bool := Qle_bool (c - 1) x && Qle_bool x (c + 1).

Definition is_point_touching (w : World) (m : Mobject) (p : Point) : bool :=
  match m with
  | T1 => within 0 (px p) && within 0 (py p)
  | T2 => within 5 (px p) && within 5 (py p)
  end.

Definition call (c : Callback) (m : Mobject) (data : EventData) (w : World)
    : Res PyValue * World :=
  (match c with
   | SayNothing => Val PyNone
   | SayTrue => Val (PyBool true)
   | SayFalse => Val (PyBool false)
   | SayZero => Val (PyOther 0)
   | Fail => Exc (OtherError 1)
   end, S w).

Definition p0 : Point := mkPoint 0 0 0.
Definition p5 : Point := mkPoint 5 5 0.

Definition no_data : EventData := mkEventData None None [].

Definition fresh : State Mobject Callback World := mkState init 0%nat.

Definition dispatch := dispatch is_point_touching call.
Definition run_ops := run_ops is_point_touching call.

(** Listeners on [T1]. *)
Definition L1 : EventListner Mobject Callback :=
  mkEventListner T1 MousePressEvent SayNothing.
Definition key_true : EventListner Mobject Callback :=
  mkEventListner T1 KeyPressEvent SayTrue.
Definition key_none : EventListner Mobject Callback :=
  mkEventListner T1 KeyPressEvent SayNothing.
Definition key_false : EventListner Mobject Callback :=
  mkEventListner T1 KeyPressEvent SayFalse.
Definition drag_true : EventListner Mobject Callback :=
  mkEventListner T1 MouseDragEvent SayTrue.
Definition drag_none : EventListner Mobject Callback :=
  mkEventListner T1 MouseDragEvent SayNothing.
Definition drag_false : EventListner Mobject Callback :=
  mkEventListner T1 MouseDragEvent SayFalse.

(** Dispatchers after some calls. *)
Definition true_then_none : State Mobject Callback World :=
  run_ops [Add key_true; Add key_none] fresh.

Definition true_false_none : State Mobject Callback World :=
  run_ops [Add key_true; Add key_false; Add key_none] fresh.

Definition one_drag : State Mobject Callback World :=
  run_ops [Add drag_none] fresh.

Definition one_press : State Mobject Callback World :=
  final (add_listener L1 fresh).

(** The pointer moved onto [T1] and the button pressed there, with two drag
    listeners registered. *)
Definition captured (first second : EventListner Mobject Callback)
    : State Mobject Callback World :=
  run_ops [Add first; Add second;
           Dispatch MouseMotionEvent (at_point p0);
           Dispatch MousePressEvent (at_point p0)] fresh.

Definition between_release_and_drag : list (Op Mobject Callback) :=
  [Dispatch MouseMotionEvent (at_point p5); Add drag_true;
   Dispatch KeyPressEvent (with_symbol 97%Z)].

Definition before_motion : list (Op Mobject Callback) :=
  [Add drag_none; Dispatch KeyPressEvent (with_symbol 97%Z);
   Dispatch MouseDragEvent (at_point p5)].

(** A listener whose callback raises, and more dispatchers. *)
Definition key_fail : EventListner Mobject Callback :=
  mkEventListner T1 KeyPressEvent Fail.

Definition fail_then_true : State Mobject Callback World :=
  run_ops [Add key_fail; Add key_true] fresh.

Definition while_captured : list (Op Mobject Callback) :=
  [Remove drag_true; Add drag_false;
   Dispatch MouseMotionEvent (at_point p5);
   Dispatch MouseDragEvent (at_point p5);
   Dispatch KeyPressEvent (with_symbol 97%Z)].

End Stage.

(** * The frame comparison of tests/utils/GraphicalUnitTester.py

    [GraphicalUnitTester.test] compares the frame a scene rendered with a
    frame stored beforehand.  The frames are numpy arrays of colour
    channels; what [test] uses of numpy is modelled by what it computes:
    the shape, the elements in C order, [isclose] without relative
    tolerance, [any], [argwhere] and indexing by a tuple. *)
Module GraphicalUnitTester.

(** An array: its shape and its element at each index.  The elements of a
    frame are the integers of its channels; an index outside the shape is
    never read. *)
Record Array := mkArray {
  shape : list nat;
  item : list nat → Z
}.

(** The indices of an array of the given shape, in C order: the last
    coordinate runs fastest. *)
Fixpoint indices (sh : list nat) : list (list nat) :=
  match sh with
  | [] => [[]]
  | n :: rest => i ← seq 0 n; (λ idx, i :: idx) <$> indices rest
  end.

(** [np.isclose(a, b, atol=atol, rtol=0)] on two elements: the values of
    channels are exact, so the test is [|a - b| <= atol]. *)
Definition isclose (atol : Q) (a b : Z) : bool :=
  Qle_bool (inject_Z (Z.abs (a - b))) atol.

(** An element of [mismatches], line 130. *)
Definition mismatch (atol : Q) (frame_data expected_frame_data : Array)
    (idx : list nat) : bool :=
  negb (isclose atol (item frame_data idx) (item expected_frame_data idx)).

(** [a[tuple(idx)]]: the elements below the index [idx], in C order. *)
Definition subarray (a : Array) (idx : list nat) : list Z :=
  (λ rest, item a (idx ++ rest)) <$> indices (drop (length idx) (shape a)).

(** What the two assertions report: the message of the first is built from
    the two shapes, that of the second from the first unmatched index and
    the two points there. *)
Inductive Failure :=
  | ShapesDiffer (expected_shape frame_shape : list nat)
  | FramesDiffer (first_incorrect_index : list nat)
                 (first_incorrect_point expected_point : list Z).

Inductive TestError :=
  | FileNotFoundError
  | IndexError
  | AssertionError (why : Failure).

(** What [test] reads of the tester: the frame the renderer of its scene
    returns, the array stored as [frame_data] in the file of the scene
    under [path_control_data], when there is such a file, and the
    tolerance. *)
Record Tester := mkTester {
  frame : Array;
  control : option Array;
  rgb_atol : Q
}.

(** [_load_data], lines 79-82. *)
Definition _load_data (self : Tester) : TestError + Array :=
  match control self with
  | Some a => inr a
  | None => inl FileNotFoundError
  end.

(** A run of [test]: the exception it ends with, if any, and whether it
    called [_show_diff_helper]. *)
Record TestRun := mkTestRun {
  raised : option TestError;
  diff_shown : bool
}.

(** [test], lines 119-144. *)
Definition test (self : Tester) (show_diff : bool) : TestRun :=
  let frame_data := frame self in
  match _load_data self with
  | inl e => mkTestRun (Some e) false
  | inr expected_frame_data =>
      if decide (shape frame_data = shape expected_frame_data) then
        let mismatches := mismatch (rgb_atol self) frame_data expected_frame_data in
        if existsb mismatches (indices (shape frame_data)) then
          match filter (λ idx, mismatches idx = true) (indices (shape frame_data)) with
          | [] => mkTestRun (Some IndexError) false
          | first :: _ =>
              let first_incorrect_index := take 2 first in
              mkTestRun
                (Some (AssertionError
                         (FramesDiffer first_incorrect_index
                            (subarray frame_data first_incorrect_index)
                            (subarray expected_frame_data first_incorrect_index))))
                show_diff
          end
        else mkTestRun None false
      else
        mkTestRun
          (Some (AssertionError
                   (ShapesDiffer (shape expected_frame_data) (shape frame_data))))
          false
  end.

(** Two frames of two rows, two columns and four channels: black but for
    one pixel, which differs in its green channel. *)
Definition black : Array :=
  mkArray [2; 2; 4] (λ idx, match idx with [_; _; 3] => 255%Z | _ => 0%Z end).

Definition speck : Array :=
  mkArray [2; 2; 4]
          (λ idx, match idx with
                  | [_; _; 3] => 255%Z
                  | [1; 0; 1] => 3%Z
                  | _ => 0%Z
                  end).

End GraphicalUnitTester.

(** * Properties *)

Section Properties.

Context {Mobject : Type} `{EqDecision Mobject}.
Context {Callback : Type} `{EqDecision Callback}.
Context {World : Type}.
Variable is_point_touching : World → Mobject → Point → bool.
Variable call : Callback → Mobject → EventData → World → Res PyValue * World.

Abbreviation EventListner := (EventListner Mobject Callback).
Abbreviation EventDispatcher := (EventDispatcher Mobject Callback).
Abbreviation Visit := (Visit Mobject Callback World).
Abbreviation State := (State Mobject Callback World).
Abbreviation M := (@M Mobject Callback World).
Abbreviation stops := (@stops Mobject Callback World).
Abbreviation ran := (@ran Mobject Callback World).
Abbreviation returned := (@returned Mobject Callback World).
Abbreviation invoked := (@invoked Mobject Callback World).
Abbreviation running := (@running Mobject Callback World).
Abbreviation outcome := (@outcome Mobject Callback World).
Abbreviation last_returned := (@last_returned Mobject Callback World).
Abbreviation Trail := (@Trail Mobject Callback World).
Abbreviation update_state := (update_state is_point_touching).
Abbreviation invoke := (invoke call).
Abbreviation call_each := (call_each call).
Abbreviation call_touching := (call_touching is_point_touching call).
Abbreviation propagate := (propagate is_point_touching call).
Abbreviation dispatch := (dispatch is_point_touching call).
Abbreviation run_op := (run_op is_point_touching call).
Abbreviation run_ops := (run_ops is_point_touching call).

(** ** The monad *)

Lemma bind_run {A B} (c : M A) (k : A → M B) (s : State) :
  (c ≫= k) s =
    match result (c s) with
    | Val a => mkRun (result (k a (final (c s)))) (final (k a (final (c s))))
                     (visited (c s) ++ visited (k a (final (c s))))
    | Exc e => mkRun (Exc e) (final (c s)) (visited (c s))
    end.
Proof. reflexivity. Qed.

(** ** The registry *)

Lemma count_set_event_listeners t l (d : EventDispatcher) :
  get_listeners_count (set_event_listeners t l d) + length (event_listeners d t) =
  get_listeners_count d + length l.
Proof.
  unfold get_listeners_count. destruct t; simpl; lia.
Qed.

Lemma add_listener_run el (s : State) :
  add_listener el s =
    mkRun (Val tt)
      (mkState (set_event_listeners (event_type el)
                  (event_listeners (self s) (event_type el) ++ [el]) (self s))
               (scene s)) [].
Proof. reflexivity. Qed.

Lemma list_remove_filter (x : EventListner) (l r : list EventListner) :
  list_remove x l = Some r →
  filter (λ y, y ≠ x) r = filter (λ y, y ≠ x) l ∧ length l = S (length r).
Proof.
  revert r. induction l as [|y l IH]; intros r; simpl; [discriminate|].
  destruct (decide (y = x)) as [->|NE].
  - intros [= <-]. by rewrite filter_cons_False by (by intros ?).
  - destruct (list_remove x l) as [r'|]; [|discriminate].
    intros [= <-]. destruct (IH r' eq_refl) as [IH1 IH2].
    rewrite !filter_cons_True by done. simpl. by rewrite IH1, IH2.
Qed.

Lemma list_remove_present (x : EventListner) (l : list EventListner) :
  x ∈ l → is_Some (list_remove x l).
Proof.
  induction l as [|y l IH]; [by intros ?%elem_of_nil|].
  intros [->|Hin]%elem_of_cons; simpl.
  - by rewrite decide_True.
  - destruct (decide (y = x)); [done|]. by destruct (IH Hin) as [r ->].
Qed.

Lemma filter_absent (x : EventListner) (l : list EventListner) :
  x ∉ l → filter (λ y, y ≠ x) l = l.
Proof.
  induction l as [|y l IH]; [done|]. intros Hx.
  apply not_elem_of_cons in Hx as [? ?].
  rewrite filter_cons_True by done. by rewrite IH.
Qed.

(** The loop ends, without an exception, once every occurrence is gone;
    nothing else changes. *)
Lemma remove_while_spec el (s : State) :
  let r := remove_while el s in
  result r = Val tt ∧ visited r = [] ∧ scene (final r) = scene s ∧
  mouse_point (self (final r)) = mouse_point (self s) ∧
  mouse_drag_point (self (final r)) = mouse_drag_point (self s) ∧
  pressed_keys (self (final r)) = pressed_keys (self s) ∧
  draggable_object_listeners (self (final r)) = draggable_object_listeners (self s) ∧
  event_listeners (self (final r)) (event_type el) =
    filter (λ y, y ≠ el) (event_listeners (self s) (event_type el)) ∧
  ∀ t, t ≠ event_type el →
       event_listeners (self (final r)) t = event_listeners (self s) t.
Proof.
  simpl. functional induction (remove_while el s) as [s Hin l' Hrm IH|s Hin Hrm|s Hin].
  - destruct IH as (I1 & I2 & I3 & I4 & I5 & I6 & I7 & I8 & I9).
    simpl in I3, I4, I5, I6, I7, I8, I9. rewrite decide_True in I8 by done.
    destruct (list_remove_filter _ _ _ Hrm) as [Hf _].
    split_and!; try done.
    + by rewrite I8.
    + intros t Ht. rewrite (I9 t Ht). by rewrite decide_False.
  - exfalso.
    destruct (list_remove_present el (event_listeners (self s) (event_type el)))
      as [r Hr]; [by eapply bool_decide_eq_true_1|congruence].
  - simpl. split_and!; try done.
    symmetry. apply filter_absent. by eapply bool_decide_eq_false_1.
Qed.

Lemma remove_listener_spec el (s : State) :
  let r := remove_listener el s in
  result r = Val tt ∧ visited r = [] ∧ scene (final r) = scene s ∧
  mouse_point (self (final r)) = mouse_point (self s) ∧
  mouse_drag_point (self (final r)) = mouse_drag_point (self s) ∧
  pressed_keys (self (final r)) = pressed_keys (self s) ∧
  draggable_object_listeners (self (final r)) = draggable_object_listeners (self s) ∧
  event_listeners (self (final r)) (event_type el) =
    filter (λ y, y ≠ el) (event_listeners (self s) (event_type el)) ∧
  ∀ t, t ≠ event_type el →
       event_listeners (self (final r)) t = event_listeners (self s) t.
Proof.
  pose proof (remove_while_spec el s) as Hw. simpl in *.
  unfold remove_listener, try_pass.
  destruct Hw as (H1 & Hw). rewrite H1.
  by destruct (remove_while el s) as [[[]|] ? ?].
Qed.

Lemma count_ext (d d' : EventDispatcher) :
  (∀ t, event_listeners d t = event_listeners d' t) →
  get_listeners_count d = get_listeners_count d'.
Proof.
  intros E. unfold get_listeners_count. simpl. by rewrite !E.
Qed.

Lemma length_split_occurrences (el : EventListner) (l : list EventListner) :
  length (filter (λ y, y ≠ el) l) + occurrences el l = length l.
Proof.
  unfold occurrences. induction l as [|y l IH]; [done|].
  rewrite !filter_cons. destruct (decide (y = el)) as [E|NE].
  - rewrite decide_False by (by intros ?). simpl. lia.
  - rewrite decide_True by done. simpl. lia.
Qed.

Lemma occurrences_absent (el : EventListner) (l : list EventListner) :
  el ∉ l → occurrences el l = 0.
Proof.
  unfold occurrences. induction l as [|y l IH]; [done|]. intros Hx.
  apply not_elem_of_cons in Hx as [? ?].
  rewrite filter_cons_False by (by intros ->). by apply IH.
Qed.

(** ** Facts on traces *)

Lemma Trail_after_stop ls vs :
  Trail ls vs → ∀ pre v post, vs = pre ++ v :: post → stops v = true → post = [].
Proof.
  induction 1 as [|l ls v Hw Hs|l ls v vs Hw Hs Ht IH]; intros pre x post E Hx.
  - by destruct pre.
  - destruct pre as [|y pre]; simplify_eq/=; [done|]. by destruct pre.
  - destruct pre as [|y pre]; simplify_eq/=; [congruence|]. eauto.
Qed.

Lemma Trail_prefix ls vs :
  Trail ls vs → ∃ rest, ls = (who <$> vs) ++ rest.
Proof.
  induction 1 as [|l ls v Hw Hs|l ls v vs Hw Hs Ht [rest IH]].
  - by exists [].
  - exists ls. simpl. by rewrite Hw.
  - exists rest. rewrite fmap_cons, Hw. simpl. by f_equal.
Qed.

Lemma Trail_complete ls vs :
  Trail ls vs → (∀ v, v ∈ vs → stops v = false) → who <$> vs = ls.
Proof.
  induction 1 as [|l ls v Hw Hs|l ls v vs Hw Hs Ht IH]; intros Hall.
  - done.
  - specialize (Hall v (list_elem_of_here _ _)). congruence.
  - rewrite fmap_cons, Hw, IH; [done|]. intros x Hx. apply Hall. by right.
Qed.

Lemma Trail_reaches pre l post (vs : list Visit) :
  Trail (pre ++ l :: post) vs →
  (∀ v, v ∈ take (length pre) vs → stops v = false) →
  ∃ v, v ∈ vs ∧ who v = l.
Proof.
  revert vs. induction pre as [|p pre IH]; intros vs Ht Hbefore.
  - inversion Ht as [|l' ls v Hw Hs|l' ls v vs' Hw Hs Hrest]; subst;
      exists v; (split; [left|done]).
  - inversion Ht as [|l' ls v Hw Hs|l' ls v vs' Hw Hs Hrest]; subst.
    + specialize (Hbefore v (list_elem_of_here _ _)). congruence.
    + destruct (IH vs' Hrest) as (x & Hx & Ex).
      * intros y Hy. apply Hbefore. simpl. by right.
      * exists x. split; [by right|done].
Qed.

Lemma Trail_nil (vs : list Visit) : Trail [] vs → vs = [].
Proof. by inversion 1. Qed.

Lemma Trail_single (l : EventListner) (vs : list Visit) :
  Trail [l] vs → ∃ v, vs = [v] ∧ who v = l.
Proof.
  inversion 1 as [|l' ls v Hw Hs|l' ls v vs' Hw Hs Hrest]; subst; [by eexists|].
  apply Trail_nil in Hrest as ->. by eexists.
Qed.

Lemma outcome_returned acc v vs r :
  did v = Returned r → outcome acc (v :: vs) = outcome r vs.
Proof.
  intros Hd. unfold outcome. destruct vs as [|x vs].
  - simpl. by rewrite Hd.
  - change (last (v :: x :: vs)) with (last (x :: vs)).
    unfold running. cbn [foldl]. rewrite Hd.
    destruct (last (x :: vs)) eqn:E; [done|].
    by apply last_None in E.
Qed.

Lemma outcome_missed acc v vs :
  did v = Missed → outcome acc (v :: vs) = outcome acc vs.
Proof.
  intros Hd. unfold outcome. destruct vs as [|x vs].
  - simpl. by rewrite Hd.
  - change (last (v :: x :: vs)) with (last (x :: vs)).
    unfold running. cbn [foldl]. by rewrite Hd.
Qed.

(** ** The propagation loops *)

Lemma invoke_run l data (s : State) :
  invoke l data s =
    mkRun (call (callback l) (mobject l) data (scene s)).1
          (mkState (self s) (call (callback l) (mobject l) data (scene s)).2)
          [mkVisit l (scene s)
             match (call (callback l) (mobject l) data (scene s)).1 with
             | Val v => Returned v
             | Exc e => Raised e
             end].
Proof. unfold invoke. by destruct (call _ _ _ _). Qed.

Lemma call_each_spec ls data acc (s : State) :
  let r := call_each ls data acc s in
  self (final r) = self s ∧
  Trail ls (visited r) ∧
  (∀ v, v ∈ visited r → ran v = true) ∧
  result r = outcome acc (visited r).
Proof.
  revert acc s. induction ls as [|l ls IH]; intros acc s.
  - simpl. split_and!; [done|constructor|by intros v ?%elem_of_nil|done].
  - cbn [call_each]. rewrite bind_run, invoke_run.
    destruct (call (callback l) (mobject l) data (scene s)) as [[x|e] w]; simpl.
    + destruct (is_False x) eqn:Hx; simpl.
      * split_and!; [done| |by intros v ->%list_elem_of_singleton|].
        -- by apply Trail_stop.
        -- done.
      * destruct (IH x (mkState (self s) w)) as (Hs & Ht & Hr & Ho).
        split_and!; [done| | |].
        -- by apply Trail_next.
        -- intros v [->|Hv]%elem_of_cons; [done|by apply Hr].
        -- rewrite Ho. symmetry. by apply outcome_returned.
    + split_and!; [done| |by intros v ->%list_elem_of_singleton|done].
      by apply Trail_stop.
Qed.

Lemma call_touching_spec ls data acc (s : State) :
  let r := call_touching ls data acc s in
  self (final r) = self s ∧
  Trail ls (visited r) ∧
  (∀ v, v ∈ visited r →
     ran v = is_point_touching (seen v) (mobject (who v)) (mouse_point (self s))) ∧
  result r = outcome acc (visited r).
Proof.
  revert acc s. induction ls as [|l ls IH]; intros acc s.
  - simpl. split_and!; [done|constructor|by intros v ?%elem_of_nil|done].
  - cbn [call_touching]. rewrite !bind_run. simpl.
    destruct (is_point_touching (scene s) (mobject l) (mouse_point (self s))) eqn:Hhit.
    + rewrite bind_run, invoke_run.
      destruct (call (callback l) (mobject l) data (scene s)) as [[x|e] w]; simpl.
      * destruct (is_False x) eqn:Hx; simpl.
        -- split_and!; [done| | |done].
           ++ by apply Trail_stop.
           ++ by intros v ->%list_elem_of_singleton.
        -- destruct (IH x (mkState (self s) w)) as (Hs & Ht & Hr & Ho).
           split_and!; [done| | |].
           ++ by apply Trail_next.
           ++ intros v [->|Hv]%elem_of_cons; [done|by apply Hr].
           ++ rewrite Ho. symmetry. by apply outcome_returned.
      * split_and!; [done| | |done].
        -- by apply Trail_stop.
        -- by intros v ->%list_elem_of_singleton.
    + rewrite bind_run. simpl.
      destruct (IH acc s) as (Hs & Ht & Hr & Ho).
      destruct s as [d w]. simpl in *.
      split_and!; [done| | |].
      * by apply Trail_next.
      * intros v [->|Hv]%elem_of_cons; [done|by apply Hr].
      * rewrite Ho. symmetry. by apply outcome_missed.
Qed.

Lemma running_snoc acc vs v :
  running acc (vs ++ [v]) =
    match did v with Returned r => r | _ => running acc vs end.
Proof. unfold running. by rewrite foldl_app. Qed.

Lemma running_last vs :
  (∀ v e, v ∈ vs → did v ≠ Raised e) → running PyNone vs = last_returned vs.
Proof.
  unfold last_returned.
  induction vs as [|v vs IH] using rev_ind; intros Hno; [done|].
  rewrite running_snoc, filter_app, filter_cons, filter_nil.
  destruct (did v) as [|r|e] eqn:Hd.
  - rewrite decide_False by (unfold ran; rewrite Hd; done).
    rewrite app_nil_r. apply IH. intros x e Hx. apply Hno, elem_of_app. by left.
  - rewrite decide_True by (unfold ran; rewrite Hd; done).
    rewrite last_snoc. unfold returned. by rewrite Hd.
  - exfalso. apply (Hno v e); [|done]. apply elem_of_app. right. by left.
Qed.

Lemma outcome_snoc acc vs v :
  outcome acc (vs ++ [v]) =
    match did v with
    | Raised e => Exc e
    | Returned r => Val r
    | Missed => Val (running acc vs)
    end.
Proof.
  unfold outcome. rewrite last_snoc, running_snoc. by destruct (did v).
Qed.

Lemma Trail_no_raise ls vs acc x :
  Trail ls vs → outcome acc vs = Val x → ∀ v e, v ∈ vs → did v ≠ Raised e.
Proof.
  intros Ht Ho v e Hv Hd.
  apply list_elem_of_split in Hv as (pre & post & ->).
  assert (post = []) as ->.
  { eapply Trail_after_stop; [done..|]. unfold stops. by rewrite Hd. }
  rewrite outcome_snoc, Hd in Ho. done.
Qed.

Lemma Trail_no_stop ls vs acc x :
  Trail ls vs → outcome acc vs = Val x → x ≠ PyBool false →
  ∀ v, v ∈ vs → stops v = false.
Proof.
  intros Ht Ho Hx v Hv. destruct (stops v) eqn:Hs; [exfalso|done].
  apply list_elem_of_split in Hv as (pre & post & ->).
  assert (post = []) as -> by (by eapply Trail_after_stop).
  rewrite outcome_snoc in Ho. unfold stops in Hs.
  destruct (did v) as [|r|e]; [done| |done].
  destruct r as [|[]|]; simplify_eq/=.
Qed.

Lemma outcome_exc acc (vs : list Visit) e :
  outcome acc vs = Exc e → ∃ v, v ∈ vs ∧ did v = Raised e.
Proof.
  unfold outcome. destruct (last vs) as [v|] eqn:El; [|done].
  destruct (did v) as [| |e'] eqn:Hd; try done. intros [= ->].
  exists v. split; [|done]. apply last_Some in El as [pre ->].
  apply elem_of_app. right. by left.
Qed.

(** ** The state update *)

Lemma update_state_run ty data (s : State) :
  let u := update_state ty data s in
  visited u = [] ∧ scene (final u) = scene s ∧
  (∀ t, event_listeners (self (final u)) t = event_listeners (self s) t) ∧
  match missing_key ty data with
  | Some k => result u = Exc (KeyError k) ∧ final u = s
  | None => result u = Val tt
  end.
Proof.
  destruct ty; simpl; unfold data_point, data_symbol;
    try destruct (point data); try destruct (symbol data); done.
Qed.

Lemma update_state_fields ty data (s : State) :
  let d := self s in
  let d' := self (final (update_state ty data s)) in
  mouse_point d' =
    match ty, point data with
    | MouseMotionEvent, Some p => p
    | _, _ => mouse_point d
    end ∧
  mouse_drag_point d' =
    match ty, point data with
    | MouseDragEvent, Some p => p
    | _, _ => mouse_drag_point d
    end ∧
  pressed_keys d' =
    match ty, symbol data with
    | KeyPressEvent, Some k => pressed_keys d ∪ {[k]}
    | KeyReleaseEvent, Some k => pressed_keys d ∖ {[k]}
    | _, _ => pressed_keys d
    end ∧
  draggable_object_listeners d' =
    match ty with
    | MousePressEvent =>
        filter (λ l, is_point_touching (scene s) (mobject l) (mouse_point d) = true)
               (event_listeners d MouseDragEvent)
    | MouseReleaseEvent => []
    | _ => draggable_object_listeners d
    end.
Proof.
  destruct ty; simpl; unfold data_point, data_symbol;
    try destruct (point data); try destruct (symbol data); done.
Qed.

Lemma update_state_candidates ty data (s : State) :
  candidates ty (self (final (update_state ty data s))) = candidates ty (self s).
Proof.
  unfold candidates. case_decide as E; [|apply update_state_run].
  subst ty. simpl. unfold data_point. by destruct (point data).
Qed.

(** ** Dispatch as a whole *)

Lemma mouse_class ty :
  startswith (value ty) "mouse" =
    match ty with KeyPressEvent | KeyReleaseEvent => false | _ => true end.
Proof. by destruct ty. Qed.

Lemma key_class ty :
  startswith (value ty) "key" =
    match ty with KeyPressEvent | KeyReleaseEvent => true | _ => false end.
Proof. by destruct ty. Qed.

Lemma propagate_spec ty data (s : State) :
  let r := propagate ty data s in
  self (final r) = self s ∧
  Trail (candidates ty (self s)) (visited r) ∧
  result r = outcome PyNone (visited r) ∧
  ∀ v, v ∈ visited r →
       ran v = if hit_tested ty
               then is_point_touching (seen v) (mobject (who v)) (mouse_point (self s))
               else true.
Proof.
  unfold propagate, candidates, hit_tested. case_decide as E.
  - rewrite bind_run. simpl.
    destruct (call_each_spec (draggable_object_listeners (self s)) data PyNone s)
      as (Hs & Ht & Hr & Ho).
    by destruct (call_each _ _ _ _).
  - rewrite mouse_class, key_class.
    destruct ty; try done; rewrite bind_run; simpl.
    all: lazymatch goal with
         | |- context [call_touching ?l ?d ?a ?s0] =>
             destruct (call_touching_spec l d a s0) as (Hs & Ht & Hr & Ho);
             by destruct (call_touching l d a s0)
         | |- context [call_each ?l ?d ?a ?s0] =>
             destruct (call_each_spec l d a s0) as (Hs & Ht & Hr & Ho);
             by destruct (call_each l d a s0)
         end.
Qed.

Lemma dispatch_run ty data (s : State) :
  dispatch ty data s =
    match result (update_state ty data s) with
    | Val _ => propagate ty data (final (update_state ty data s))
    | Exc e => mkRun (Exc e) (final (update_state ty data s)) []
    end.
Proof.
  change (dispatch ty data s)
    with ((update_state ty data ≫= λ _, propagate ty data) s).
  rewrite bind_run.
  destruct (update_state_run ty data s) as (-> & _).
  destruct (result (update_state ty data s)); [|done].
  by destruct (propagate _ _ _).
Qed.

(** What a dispatch does: with the key of its state update missing, a
    [KeyError] and nothing else; otherwise the state update, then a walk of
    its candidates that leaves the dispatcher as the update left it. *)
Lemma dispatch_spec ty data (s : State) :
  let r := dispatch ty data s in
  match missing_key ty data with
  | Some k => r = mkRun (Exc (KeyError k)) s []
  | None =>
      self (final r) = self (final (update_state ty data s)) ∧
      Trail (candidates ty (self s)) (visited r) ∧
      result r = outcome PyNone (visited r) ∧
      ∀ v, v ∈ visited r →
           ran v = if hit_tested ty
                   then is_point_touching (seen v) (mobject (who v))
                          (mouse_point (self (final (update_state ty data s))))
                   else true
  end.
Proof.
  simpl. rewrite dispatch_run.
  destruct (update_state_run ty data s) as (_ & _ & _ & Hu).
  destruct (missing_key ty data) as [k|].
  - destruct Hu as [-> ->]. done.
  - rewrite Hu.
    destruct (propagate_spec ty data (final (update_state ty data s)))
      as (Hs & Ht & Ho & Hr).
    by rewrite update_state_candidates in Ht.
Qed.

Lemma dispatch_self ty data (s : State) :
  self (final (dispatch ty data s)) = self (final (update_state ty data s)).
Proof.
  pose proof (dispatch_spec ty data s) as Hd. simpl in Hd.
  destruct (update_state_run ty data s) as (_ & _ & _ & Hu).
  destruct (missing_key ty data) as [k|].
  - destruct Hu as [_ ->]. by rewrite Hd.
  - by destruct Hd as (-> & _).
Qed.

Lemma dispatch_registry ty data (s : State) t :
  event_listeners (self (final (dispatch ty data s))) t = event_listeners (self s) t.
Proof. rewrite dispatch_self. apply update_state_run. Qed.

Lemma dispatch_mouse_point ty data (s : State) :
  mouse_point (self (final (dispatch ty data s))) =
    match ty, point data with
    | MouseMotionEvent, Some p => p
    | _, _ => mouse_point (self s)
    end.
Proof. rewrite dispatch_self. apply update_state_fields. Qed.

(** A press on a dispatcher with one press listener, whose target is
    either always or never under the pointer. *)
Lemma press_single_listener data (s : State) (L : EventListner) (b : bool) :
  event_listeners (self s) MousePressEvent = [L] →
  (∀ w, is_point_touching w (mobject L) (mouse_point (self s)) = b) →
  invoked (visited (dispatch MousePressEvent data s)) = if b then [L] else [].
Proof.
  intros Hreg Hb.
  pose proof (dispatch_spec MousePressEvent data s) as Hd.
  unfold missing_key in Hd. cbv beta iota zeta in Hd.
  destruct Hd as (_ & Ht & _ & Hran).
  unfold candidates in Ht. rewrite decide_False, Hreg in Ht by done.
  assert (∃ v, visited (dispatch MousePressEvent data s) = [v] ∧ who v = L)
    as (v & Hv & Hw).
  { by apply Trail_single. }
  rewrite Hv in Hran |- *. specialize (Hran v (list_elem_of_here _ _)).
  rewrite Hw, Hb in Hran. unfold invoked.
  rewrite filter_cons, filter_nil. destruct b.
  - rewrite decide_True by done. simpl. by rewrite Hw.
  - rewrite decide_False by (by rewrite Hran). done.
Qed.

(** ** Sequences of calls *)

Lemma run_ops_invariant (P : State → Prop) (ops : list (Op Mobject Callback)) s :
  P s → (∀ o s', o ∈ ops → P s' → P (run_op o s')) → P (run_ops ops s).
Proof.
  revert s. induction ops as [|o ops IH]; intros s Hs Hstep; [done|].
  simpl. apply IH.
  - apply Hstep; [left|done].
  - intros o' s' Ho'. apply Hstep. by right.
Qed.

Lemma run_op_mouse_point (o : Op Mobject Callback) (s : State) :
  (∀ d, o ≠ Dispatch MouseMotionEvent d) →
  mouse_point (self (run_op o s)) = mouse_point (self s).
Proof.
  intros Hno. destruct o as [el|el|ty data]; simpl.
  - done.
  - by destruct (remove_listener_spec el s) as (_ & _ & _ & -> & _).
  - rewrite dispatch_self.
    destruct (update_state_fields ty data s) as (-> & _).
    destruct ty; try done. by destruct (Hno data).
Qed.

Lemma run_op_no_capture (o : Op Mobject Callback) (s : State) :
  (∀ d, o ≠ Dispatch MousePressEvent d) →
  draggable_object_listeners (self s) = [] →
  draggable_object_listeners (self (run_op o s)) = [].
Proof.
  intros Hno Hs. destruct o as [el|el|ty data]; simpl.
  - done.
  - by destruct (remove_listener_spec el s) as (_ & _ & _ & _ & _ & _ & -> & _).
  - rewrite dispatch_self.
    destruct (update_state_fields ty data s) as (_ & _ & _ & ->).
    destruct ty; try done. by destruct (Hno data).
Qed.

(** ** Stop propagation and the result of a dispatch *)

(** C1 (amended).  In every dispatch the listeners visited are, in order,
    an initial part of the listeners the dispatch has to walk.  A callback
    that returns exactly [False] is the last listener visited, and the
    dispatch returns [False]; a dispatch that returns anything else has
    gone through all its listeners, so no other return value stops it.
    What a dispatch returns is the value returned by the last callback it
    invoked, [None] included, and [None] when it invoked no callback. *)
Theorem dispatch_stop_propagation ty data (s : State) :
  let r := dispatch ty data s in
  (∃ rest, candidates ty (self s) = (who <$> visited r) ++ rest) ∧
  (∀ pre v post,
     visited r = pre ++ v :: post → did v = Returned (PyBool false) →
     post = [] ∧ result r = Val (PyBool false)) ∧
  (∀ x, result r = Val x → x ≠ PyBool false →
     who <$> visited r = candidates ty (self s)) ∧
  (∀ x, result r = Val x → x = last_returned (visited r)) ∧
  (invoked (visited r) = [] → ∀ x, result r = Val x → x = PyNone).
Proof.
  intros r. subst r.
  pose proof (dispatch_spec ty data s) as Hd. simpl in Hd.
  destruct (missing_key ty data) as [k|].
  { rewrite Hd. simpl. split_and!; try done; [by eexists|].
    intros pre v post E. by destruct pre. }
  destruct Hd as (_ & Ht & Ho & _).
  assert (∀ x, result (dispatch ty data s) = Val x →
               x = last_returned (visited (dispatch ty data s))) as Hlast.
  { intros x Hx. rewrite Ho in Hx.
    rewrite <- running_last by (by eapply Trail_no_raise).
    unfold outcome in Hx. destruct (last _) as [v|] eqn:El.
    - destruct (did v); by inversion Hx.
    - apply last_None in El. rewrite El in *. by inversion Hx. }
  split_and!.
  - by apply Trail_prefix.
  - intros pre v post E Hv.
    assert (post = []) as ->.
    { eapply Trail_after_stop; [done..|]. unfold stops. by rewrite Hv. }
    split; [done|]. by rewrite Ho, E, outcome_snoc, Hv.
  - intros x Hx Hne. rewrite Ho in Hx.
    apply Trail_complete; [done|]. by eapply Trail_no_stop.
  - done.
  - intros Hnone x Hx. rewrite (Hlast x Hx). unfold last_returned.
    unfold invoked in Hnone. apply fmap_nil_inv in Hnone. by rewrite Hnone.
Qed.

(** ** The drag capture *)

(** C2 (amended).  After a dispatch of [MousePressEvent], whatever point
    its payload carries, the captured listeners are the listeners
    registered for [MouseDragEvent] whose target touches the pointer
    position the dispatcher holds, in registration order; they are those
    whose target touches [P] when the press follows a [MouseMotionEvent]
    dispatched at [P]. *)
Theorem press_captures_at_mouse_point data (s : State) :
  draggable_object_listeners (self (final (dispatch MousePressEvent data s))) =
    filter (λ l, is_point_touching (scene s) (mobject l) (mouse_point (self s)) = true)
           (event_listeners (self s) MouseDragEvent) ∧
  ∀ (P : Point) k e,
    let s1 := final (dispatch MouseMotionEvent (mkEventData (Some P) k e) s) in
    draggable_object_listeners (self (final (dispatch MousePressEvent data s1))) =
      filter (λ l, is_point_touching (scene s1) (mobject l) P = true)
             (event_listeners (self s) MouseDragEvent).
Proof.
  assert (∀ s : State,
    draggable_object_listeners (self (final (dispatch MousePressEvent data s))) =
    filter (λ l, is_point_touching (scene s) (mobject l) (mouse_point (self s)) = true)
           (event_listeners (self s) MouseDragEvent)) as Hpress.
  { intros s'. rewrite dispatch_self.
    by destruct (update_state_fields MousePressEvent data s') as (_ & _ & _ & ->). }
  split; [apply Hpress|].
  intros P k e s1. rewrite Hpress. subst s1.
  rewrite !dispatch_self.
  destruct (update_state_fields MouseMotionEvent (mkEventData (Some P) k e) s)
    as (-> & _).
  destruct (update_state_run MouseMotionEvent (mkEventData (Some P) k e) s)
    as (_ & _ & -> & _).
  done.
Qed.

(** C4 (amended).  A dispatch of [MouseDragEvent] at [Q] makes no hit
    test: it invokes a captured listener, wherever its target is, provided
    no listener before it among the captured ones ended the dispatch by
    returning [False] or by raising.  A dispatch of [MouseMotionEvent] at
    [Q] tests every listener it reaches against [Q] and invokes it exactly
    when its target touches [Q] at that moment; a listener whose target
    does not touch [Q] is not invoked. *)
Theorem drag_sticky_motion_retested (s : State) (Q : Point) data :
  point data = Some Q →
  (∀ pre L post,
     draggable_object_listeners (self s) = pre ++ L :: post →
     let r := dispatch MouseDragEvent data s in
     (∀ v, v ∈ take (length pre) (visited r) → stops v = false) →
     L ∈ invoked (visited r)) ∧
  (let r := dispatch MouseMotionEvent data s in
   (∀ v, v ∈ visited r →
      ran v = is_point_touching (seen v) (mobject (who v)) Q) ∧
   (∀ L, (∀ w, is_point_touching w (mobject L) Q = false) →
      L ∉ invoked (visited r))).
Proof.
  intros Hq. split.
  - intros pre L post HL r Hbefore. subst r.
    pose proof (dispatch_spec MouseDragEvent data s) as Hd. simpl in Hd.
    rewrite Hq in Hd. destruct Hd as (_ & Ht & _ & Hran).
    unfold candidates in Ht. rewrite decide_True, HL in Ht by done.
    destruct (Trail_reaches _ _ _ _ Ht Hbefore) as (v & Hv & Hw).
    unfold invoked. apply list_elem_of_fmap. exists v. split; [done|].
    apply list_elem_of_filter. split; [|done]. by apply Hran.
  - intros r. subst r.
    pose proof (dispatch_spec MouseMotionEvent data s) as Hd. simpl in Hd.
    rewrite Hq in Hd. destruct Hd as (_ & _ & _ & Hran).
    destruct (update_state_fields MouseMotionEvent data s) as (Hp & _).
    rewrite Hq in Hp. simpl in Hp. rewrite Hp in Hran.
    split; [exact Hran|].
    intros L Hout (v & -> & [Hv Hin]%list_elem_of_filter)%list_elem_of_fmap.
    rewrite (Hran v Hin), Hout in Hv. done.
Qed.

(** C3 (amended).  With [L1] registered for [MousePressEvent] on a target
    [T1] that touches [p0] and not [p5]: a dispatch of [MouseMotionEvent] at
    [p0] sets the pointer position to [p0] and visits no listener; a
    dispatch of [MousePressEvent] at [p0] then invokes [L1] once; a dispatch
    of [MousePressEvent] at [p5] after that invokes [L1] once more, the
    pointer position still being [p0]; once [MouseMotionEvent] has been
    dispatched at [p5], a dispatch of [MousePressEvent] does not invoke
    [L1]. *)
Theorem press_scenario (T1 : Mobject) (cb : Callback) (p0 p5 : Point) (w0 : World) :
  (∀ w, is_point_touching w T1 p0 = true) →
  (∀ w, is_point_touching w T1 p5 = false) →
  let L1 := mkEventListner T1 MousePressEvent cb in
  let s0 := final (add_listener L1 (mkState init w0)) in
  let r1 := dispatch MouseMotionEvent (at_point p0) s0 in
  let r2 := dispatch MousePressEvent (at_point p0) (final r1) in
  let r3 := dispatch MousePressEvent (at_point p5) (final r2) in
  let r4 := dispatch MouseMotionEvent (at_point p5) (final r2) in
  let r5 := dispatch MousePressEvent (at_point p5) (final r4) in
  mouse_point (self (final r1)) = p0 ∧ visited r1 = [] ∧
  invoked (visited r2) = [L1] ∧
  invoked (visited r3) = [L1] ∧
  invoked (visited r5) = [].
Proof.
  intros Hin Hout L1 s0 r1 r2 r3 r4 r5.
  assert (∀ t, event_listeners (self s0) t =
               if decide (t = MousePressEvent) then [L1] else []) as Hreg by done.
  assert (visited r1 = []) as Hv1.
  { pose proof (dispatch_spec MouseMotionEvent (at_point p0) s0) as Hd.
    unfold missing_key in Hd. cbv beta iota zeta in Hd.
    destruct Hd as (_ & Ht & _).
    unfold candidates in Ht. rewrite decide_False in Ht by done.
    rewrite Hreg, decide_False in Ht by done. by apply Trail_nil in Ht. }
  assert (mouse_point (self (final r1)) = p0) as Hp1
    by (subst r1; by rewrite dispatch_mouse_point).
  assert (mouse_point (self (final r2)) = p0) as Hp2
    by (subst r2; by rewrite dispatch_mouse_point).
  assert (mouse_point (self (final r4)) = p5) as Hp4
    by (subst r4; by rewrite dispatch_mouse_point).
  split_and!; [done|done|..].
  - apply (press_single_listener _ _ L1 true).
    + subst r1. by rewrite dispatch_registry.
    + intros w. rewrite Hp1. apply Hin.
  - apply (press_single_listener _ _ L1 true).
    + subst r2 r1. by rewrite !dispatch_registry.
    + intros w. rewrite Hp2. apply Hin.
  - apply (press_single_listener _ _ L1 false).
    + subst r4 r2 r1. by rewrite !dispatch_registry.
    + intros w. rewrite Hp4. apply Hout.
Qed.

(** C5.  Once [MouseReleaseEvent] has been dispatched no listener is
    captured, and, whatever the host does next short of dispatching
    [MousePressEvent], a dispatch of [MouseDragEvent] at a point visits no
    listener and returns [None]. *)
Theorem release_clears_capture release (s : State)
    (ops : list (Op Mobject Callback)) drag (Q : Point) :
  let s1 := final (dispatch MouseReleaseEvent release s) in
  draggable_object_listeners (self s1) = [] ∧
  ((∀ o d, o ∈ ops → o ≠ Dispatch MousePressEvent d) →
   point drag = Some Q →
   let r := dispatch MouseDragEvent drag (run_ops ops s1) in
   visited r = [] ∧ result r = Val PyNone).
Proof.
  intros s1.
  assert (draggable_object_listeners (self s1) = []) as Hs1.
  { subst s1. rewrite dispatch_self.
    by destruct (update_state_fields MouseReleaseEvent release s) as (_ & _ & _ & ->). }
  split; [done|]. intros Hops Hq r.
  assert (draggable_object_listeners (self (run_ops ops s1)) = []) as Hnone.
  { apply (run_ops_invariant (λ s, draggable_object_listeners (self s) = []));
      [done|].
    intros o s' Ho. apply run_op_no_capture. intros d. by apply Hops. }
  pose proof (dispatch_spec MouseDragEvent drag (run_ops ops s1)) as Hd.
  simpl in Hd. rewrite Hq in Hd. destruct Hd as (_ & Ht & Ho & _).
  unfold candidates in Ht. rewrite decide_True, Hnone in Ht by done.
  apply Trail_nil in Ht. subst r. by rewrite Ho, Ht.
Qed.

(** C10.  A new dispatcher has both points at the origin, no key held and
    no listener captured; and as long as no [MouseMotionEvent] has been
    dispatched, a dispatch of [MousePressEvent] captures the drag listeners
    whose target touches the origin, whatever its payload. *)
Theorem press_before_motion (w : World) (ops : list (Op Mobject Callback)) data :
  mouse_point (init : EventDispatcher) = origin ∧
  mouse_drag_point (init : EventDispatcher) = origin ∧
  pressed_keys (init : EventDispatcher) = ∅ ∧
  draggable_object_listeners (init : EventDispatcher) = [] ∧
  ((∀ o d, o ∈ ops → o ≠ Dispatch MouseMotionEvent d) →
   let s := run_ops ops (mkState init w) in
   draggable_object_listeners (self (final (dispatch MousePressEvent data s))) =
     filter (λ l, is_point_touching (scene s) (mobject l) origin = true)
            (event_listeners (self s) MouseDragEvent)).
Proof.
  split_and!; try done. intros Hops s.
  assert (mouse_point (self s) = origin) as Hp.
  { apply (run_ops_invariant (λ s, mouse_point (self s) = origin)); [done|].
    intros o s' Ho Hs'. rewrite run_op_mouse_point; [done|].
    intros d. by apply Hops. }
  rewrite dispatch_self.
  destruct (update_state_fields MousePressEvent data s) as (_ & _ & _ & ->).
  by rewrite Hp.
Qed.

(** ** Keys *)

(** C8.  After a dispatch of [KeyPressEvent] with symbol [k] the key is
    held; after a following dispatch of [KeyReleaseEvent] with [k] it is
    not.  A release of a key that is not held is no error: its state update
    returns and changes nothing, the dispatch leaves the dispatcher as it
    was, and raises only if a callback it invoked raised. *)
Theorem key_press_release (k : Symbol) press release (s : State) :
  symbol press = Some k → symbol release = Some k →
  let s1 := final (dispatch KeyPressEvent press s) in
  let s2 := final (dispatch KeyReleaseEvent release s1) in
  is_key_pressed k (self s1) = true ∧
  is_key_pressed k (self s2) = false ∧
  ∀ s' : State,
    is_key_pressed k (self s') = false →
    let r := dispatch KeyReleaseEvent release s' in
    update_state KeyReleaseEvent release s' = mkRun (Val tt) s' [] ∧
    self (final r) = self s' ∧
    ∀ e, result r = Exc e → ∃ v, v ∈ visited r ∧ did v = Raised e.
Proof.
  intros Hp Hr s1 s2. split_and!.
  - subst s1. rewrite dispatch_self.
    destruct (update_state_fields KeyPressEvent press s) as (_ & _ & E & _).
    unfold is_key_pressed. rewrite E, Hp. apply bool_decide_eq_true_2.
    apply elem_of_union. right. by apply elem_of_singleton.
  - subst s2. rewrite dispatch_self.
    destruct (update_state_fields KeyReleaseEvent release s1) as (_ & _ & E & _).
    unfold is_key_pressed. rewrite E, Hr. apply bool_decide_eq_false_2.
    intros [_ Hn]%elem_of_difference. apply Hn. by apply elem_of_singleton.
  - intros s' Hk r.
    apply bool_decide_eq_false_1 in Hk.
    assert (update_state KeyReleaseEvent release s' = mkRun (Val tt) s' []) as Hu.
    { assert (pressed_keys (self s') ∖ {[k]} = pressed_keys (self s')) as Hsame.
      { apply difference_disjoint_L, disjoint_singleton_r, Hk. }
      simpl. unfold data_symbol. rewrite Hr, !bind_run. simpl.
      rewrite Hsame. by destruct s' as [[] ?]. }
    split_and!; [done| |].
    + subst r. by rewrite dispatch_self, Hu.
    + subst r. intros e He.
      pose proof (dispatch_spec KeyReleaseEvent release s') as Hd.
      simpl in Hd. rewrite Hr in Hd. destruct Hd as (_ & _ & Ho & _).
      apply (outcome_exc PyNone). by rewrite <- Ho.
Qed.

(** ** Payloads that lack a field *)

(** C9.  A dispatch of a motion or a drag whose payload has no [point], or
    of a key press or release whose payload has no [symbol], raises
    [KeyError], visits no listener and leaves the dispatcher and the scene
    exactly as they were. *)
Theorem dispatch_missing_field ty data (s : State) :
  ((ty = MouseMotionEvent ∨ ty = MouseDragEvent) → point data = None →
   dispatch ty data s = mkRun (Exc (KeyError "point")) s []) ∧
  ((ty = KeyPressEvent ∨ ty = KeyReleaseEvent) → symbol data = None →
   dispatch ty data s = mkRun (Exc (KeyError "symbol")) s []).
Proof.
  pose proof (dispatch_spec ty data s) as Hd. simpl in Hd.
  split; intros [-> | ->] Hnone; simpl in Hd; by rewrite Hnone in Hd.
Qed.

(** ** Adding and removing listeners *)

(** C6 (amended).  [remove_listener] deletes every occurrence of the entry
    from the list of its event type and nothing else, without raising.  So
    adding an entry and removing it again leaves the count at its value
    before the add less the number of occurrences the entry already had in
    the registry: back at its value before the add when the entry was not
    registered before. *)
Theorem add_then_remove (el : EventListner) (s : State) :
  let r := remove_listener el (final (add_listener el s)) in
  (∀ s' : State,
     let r' := remove_listener el s' in
     result r' = Val tt ∧
     event_listeners (self (final r')) (event_type el) =
       filter (λ y, y ≠ el) (event_listeners (self s') (event_type el)) ∧
     ∀ t, t ≠ event_type el →
          event_listeners (self (final r')) t = event_listeners (self s') t) ∧
  get_listeners_count (self (final r)) +
    occurrences el (event_listeners (self s) (event_type el)) =
    get_listeners_count (self s) ∧
  (el ∉ event_listeners (self s) (event_type el) →
   get_listeners_count (self (final r)) = get_listeners_count (self s)).
Proof.
  intros r.
  assert (get_listeners_count (self (final r)) +
            occurrences el (event_listeners (self s) (event_type el)) =
          get_listeners_count (self s)) as Hcount.
  { subst r. rewrite add_listener_run. cbn [final].
    destruct (remove_listener_spec el
      (mkState (set_event_listeners (event_type el)
                  (event_listeners (self s) (event_type el) ++ [el]) (self s))
               (scene s))) as (_ & _ & _ & _ & _ & _ & _ & Hty & Hother).
    simpl in Hty, Hother. rewrite decide_True in Hty by done.
    rewrite filter_app, filter_cons_False, filter_nil, app_nil_r in Hty
      by (by intros ?).
    rewrite (count_ext _ (set_event_listeners (event_type el)
               (filter (λ y, y ≠ el) (event_listeners (self s) (event_type el)))
               (self s))).
    - pose proof (count_set_event_listeners (event_type el)
        (filter (λ y, y ≠ el) (event_listeners (self s) (event_type el))) (self s)).
      pose proof (length_split_occurrences el
        (event_listeners (self s) (event_type el))).
      lia.
    - intros t. simpl. destruct (decide (t = event_type el)) as [->|NE]; [done|].
      rewrite Hother by done. by rewrite decide_False. }
  split_and!; [|done|].
  - intros s'. destruct (remove_listener_spec el s')
      as (? & _ & _ & _ & _ & _ & _ & ? & ?). done.
  - intros Hnew. rewrite <- Hcount, occurrences_absent by done. lia.
Qed.

(** C7.  Removing an entry that is not in the list of its event type does
    not raise, not even inside the [try], and leaves the dispatcher, and so
    the registry and its count, as they were. *)
Theorem remove_absent_is_noop (el : EventListner) (s : State) :
  el ∉ event_listeners (self s) (event_type el) →
  remove_while el s = mkRun (Val tt) s [] ∧
  remove_listener el s = mkRun (Val tt) s [] ∧
  get_listeners_count (self (final (remove_listener el s))) =
    get_listeners_count (self s).
Proof.
  intros Hn.
  assert (remove_while el s = mkRun (Val tt) s []) as E.
  { rewrite remove_while_equation.
    by rewrite bool_decide_eq_false_2. }
  unfold remove_listener, try_pass. by rewrite E.
Qed.

(** * Further properties of the dispatcher *)

Abbreviation faithful := (faithful call).
Abbreviation scene_after := (scene_after call).

(** ** The registry, continued *)

(** [add_listener] never refuses an entry, registered already or not: the
    count goes up by one, the entry occurs once more in the list of its
    event type, where it is now the last, and no other list changes. *)
Theorem add_listener_counts (el : EventListner) (s : State) :
  let r := add_listener el s in
  result r = Val tt ∧
  get_listeners_count (self (final r)) = S (get_listeners_count (self s)) ∧
  occurrences el (event_listeners (self (final r)) (event_type el)) =
    S (occurrences el (event_listeners (self s) (event_type el))) ∧
  last (event_listeners (self (final r)) (event_type el)) = Some el ∧
  ∀ t, event_listeners (self (final r)) t =
       if decide (t = event_type el)
       then event_listeners (self s) t ++ [el]
       else event_listeners (self s) t.
Proof.
  intros r. subst r. rewrite add_listener_run. cbn [result final self].
  split_and!.
  - done.
  - pose proof (count_set_event_listeners (event_type el)
      (event_listeners (self s) (event_type el) ++ [el]) (self s)) as Hc.
    rewrite length_app in Hc. simpl in Hc. lia.
  - simpl. rewrite decide_True by done. unfold occurrences.
    rewrite filter_app, filter_cons_True, filter_nil, length_app by done.
    simpl. lia.
  - simpl. rewrite decide_True by done. apply last_snoc.
  - intros t. simpl. by destruct (decide (t = event_type el)) as [->|].
Qed.


(** [remove_listener] is idempotent: after it the entry does not occur in
    the list of its event type, and removing it once more returns without
    an exception and leaves the whole state as it is. *)
Theorem remove_listener_idempotent (el : EventListner) (s : State) :
  let s1 := final (remove_listener el s) in
  occurrences el (event_listeners (self s1) (event_type el)) = 0 ∧
  remove_listener el s1 = mkRun (Val tt) s1 [].
Proof.
  intros s1.
  destruct (remove_listener_spec el s) as (_ & _ & _ & _ & _ & _ & _ & Hty & _).
  fold s1 in Hty.
  assert (el ∉ event_listeners (self s1) (event_type el)) as Hgone.
  { rewrite Hty. by intros [? _]%list_elem_of_filter. }
  split; [by apply occurrences_absent|].
  unfold remove_listener, try_pass.
  rewrite remove_while_equation. by rewrite bool_decide_eq_false_2.
Qed.

(** Adding an entry that is not registered and removing it again is a
    round trip: every list of the registry, the two points, the keys held,
    the captured listeners and the scene are what they were. *)
Theorem add_remove_round_trip (el : EventListner) (s : State) :
  el ∉ event_listeners (self s) (event_type el) →
  let s' := final (remove_listener el (final (add_listener el s))) in
  (∀ t, event_listeners (self s') t = event_listeners (self s) t) ∧
  mouse_point (self s') = mouse_point (self s) ∧
  mouse_drag_point (self s') = mouse_drag_point (self s) ∧
  pressed_keys (self s') = pressed_keys (self s) ∧
  draggable_object_listeners (self s') = draggable_object_listeners (self s) ∧
  scene s' = scene s.
Proof.
  intros Hnew s'. subst s'. rewrite add_listener_run. cbn [final].
  destruct (remove_listener_spec el
    (mkState (set_event_listeners (event_type el)
                (event_listeners (self s) (event_type el) ++ [el]) (self s))
             (scene s))) as (_ & _ & Hsc & Hp & Hd & Hk & Hc & Hty & Hother).
  simpl in Hsc, Hp, Hd, Hk, Hc, Hty, Hother.
  rewrite decide_True in Hty by done.
  rewrite filter_app, filter_cons_False, filter_nil, app_nil_r in Hty
    by (by intros ?).
  rewrite filter_absent in Hty by done.
  split_and!; try done.
  intros t. destruct (decide (t = event_type el)) as [->|NE]; [done|].
  rewrite Hother by done. by rewrite decide_False.
Qed.

(** ** The drag capture, continued *)

Lemma run_op_capture (o : Op Mobject Callback) (s : State) :
  (∀ d, o ≠ Dispatch MousePressEvent d) →
  (∀ d, o ≠ Dispatch MouseReleaseEvent d) →
  draggable_object_listeners (self (run_op o s)) =
    draggable_object_listeners (self s).
Proof.
  intros Hp Hr. destruct o as [el|el|ty data]; simpl.
  - done.
  - by destruct (remove_listener_spec el s) as (_ & _ & _ & _ & _ & _ & -> & _).
  - rewrite dispatch_self.
    destruct (update_state_fields ty data s) as (_ & _ & _ & ->).
    destruct ty; try done; [by destruct (Hp data)|by destruct (Hr data)].
Qed.

(** The captured listeners change only when a press or a release is
    dispatched: no [add_listener], no [remove_listener] and no dispatch of
    another event, whatever its callbacks do, changes them. *)
Theorem capture_changes_on_press_and_release
    (ops : list (Op Mobject Callback)) (s : State) :
  (∀ o d, o ∈ ops → o ≠ Dispatch MousePressEvent d ∧ o ≠ Dispatch MouseReleaseEvent d) →
  draggable_object_listeners (self (run_ops ops s)) =
    draggable_object_listeners (self s).
Proof.
  intros Hops.
  apply (run_ops_invariant
           (λ s', draggable_object_listeners (self s') =
                  draggable_object_listeners (self s))); [done|].
  intros o s' Ho <-. apply run_op_capture; intros d; by apply (Hops o d).
Qed.

(** A captured listener that is then removed from the registry is still
    dragged: [remove_listener] takes it out of the list of its event type,
    not out of the captured listeners, and the next drag invokes it,
    provided no captured listener before it ends the dispatch. *)
Theorem removed_listener_still_dragged (s : State) (Q : Point) data pre L post :
  draggable_object_listeners (self s) = pre ++ L :: post →
  point data = Some Q →
  let s1 := final (remove_listener L s) in
  let r := dispatch MouseDragEvent data s1 in
  (∀ v, v ∈ take (length pre) (visited r) → stops v = false) →
  occurrences L (event_listeners (self s1) (event_type L)) = 0 ∧
  L ∈ invoked (visited r).
Proof.
  intros HL Hq s1 r Hbefore.
  destruct (remove_listener_spec L s) as (_ & _ & _ & _ & _ & _ & Hc & Hty & _).
  fold s1 in Hc, Hty. split.
  - apply occurrences_absent. rewrite Hty. by intros [? _]%list_elem_of_filter.
  - subst r. pose proof (dispatch_spec MouseDragEvent data s1) as Hd.
    simpl in Hd. rewrite Hq in Hd. destruct Hd as (_ & Ht & _ & Hran).
    unfold candidates in Ht. rewrite decide_True, Hc, HL in Ht by done.
    destruct (Trail_reaches _ _ _ _ Ht Hbefore) as (v & Hv & Hw).
    unfold invoked. apply list_elem_of_fmap. exists v. split; [done|].
    apply list_elem_of_filter. split; [|done]. by apply Hran.
Qed.

(** ** Callbacks *)


Lemma call_each_faithful ls data acc (s : State) :
  let r := call_each ls data acc s in
  faithful data (scene s) (visited r) ∧
  scene (final r) = scene_after data (scene s) (visited r).
Proof.
  revert acc s. induction ls as [|l ls IH]; intros acc s; [done|].
  cbn [call_each]. rewrite bind_run, invoke_run.
  destruct (call (callback l) (mobject l) data (scene s)) as [[x|e] w] eqn:Hc;
    simpl; [|by rewrite Hc].
  destruct (is_False x); simpl; [by rewrite Hc|].
  destruct (IH x (mkState (self s) w)) as [Hf Hs]. simpl in Hf, Hs.
  rewrite Hc. simpl. done.
Qed.

Lemma call_touching_faithful ls data acc (s : State) :
  let r := call_touching ls data acc s in
  faithful data (scene s) (visited r) ∧
  scene (final r) = scene_after data (scene s) (visited r).
Proof.
  revert acc s. induction ls as [|l ls IH]; intros acc s; [done|].
  cbn [call_touching]. rewrite !bind_run. simpl.
  destruct (is_point_touching (scene s) (mobject l) (mouse_point (self s))).
  - rewrite bind_run, invoke_run.
    destruct (call (callback l) (mobject l) data (scene s)) as [[x|e] w] eqn:Hc;
      simpl; [|by rewrite Hc].
    destruct (is_False x); simpl; [by rewrite Hc|].
    destruct (IH x (mkState (self s) w)) as [Hf Hs]. simpl in Hf, Hs.
    rewrite Hc. simpl. done.
  - rewrite bind_run. simpl.
    destruct (IH acc s) as [Hf Hs]. by destruct s.
Qed.

Lemma propagate_faithful ty data (s : State) :
  let r := propagate ty data s in
  faithful data (scene s) (visited r) ∧
  scene (final r) = scene_after data (scene s) (visited r).
Proof.
  unfold propagate. case_decide as E.
  - rewrite bind_run. simpl.
    destruct (call_each_faithful (draggable_object_listeners (self s)) data PyNone s)
      as (Hf & Hs).
    by destruct (call_each _ _ _ _).
  - rewrite mouse_class, key_class.
    destruct ty; try done; rewrite bind_run; simpl.
    all: lazymatch goal with
         | |- context [call_touching ?l ?d ?a ?s0] =>
             destruct (call_touching_faithful l d a s0) as (Hf & Hs);
             by destruct (call_touching l d a s0)
         | |- context [call_each ?l ?d ?a ?s0] =>
             destruct (call_each_faithful l d a s0) as (Hf & Hs);
             by destruct (call_each l d a s0)
         end.
Qed.

Lemma dispatch_scene ty data (s : State) :
  scene (final (dispatch ty data s)) =
    scene_after data (scene s) (visited (dispatch ty data s)).
Proof.
  rewrite dispatch_run.
  destruct (update_state_run ty data s) as (_ & Hsc & _ & _).
  destruct (result (update_state ty data s)); cbn [visited final]; [|done].
  destruct (propagate_faithful ty data (final (update_state ty data s)))
    as [_ Hs].
  by rewrite Hsc in Hs.
Qed.

(** Every callback a dispatch invokes is the callback of the listener
    visited, called with the target of that listener and the payload of the
    dispatch, on the scene left by the callbacks invoked before it; the
    log records what it returned or raised, and the dispatch leaves the
    scene that the last callback invoked left. *)
Theorem dispatch_calls_in_sequence ty data (s : State) :
  let r := dispatch ty data s in
  faithful data (scene s) (visited r) ∧
  scene (final r) = scene_after data (scene s) (visited r).
Proof.
  simpl. split; [|apply dispatch_scene]. rewrite dispatch_run.
  destruct (update_state_run ty data s) as (_ & Hsc & _ & _).
  destruct (result (update_state ty data s)); cbn [visited]; [|done].
  destruct (propagate_faithful ty data (final (update_state ty data s)))
    as [Hf _].
  by rewrite Hsc in Hf.
Qed.

(** The dispatcher catches nothing: when a callback raises, no listener is
    visited after it and the dispatch ends with that exception.  A dispatch
    ends with an exception only so, or with the [KeyError] of a payload that
    lacks the key its state update reads.  The state update stays made: the
    dispatcher is left as the update left it. *)
Theorem callback_exception_propagates ty data (s : State) :
  let r := dispatch ty data s in
  (∀ pre v post e,
     visited r = pre ++ v :: post → did v = Raised e →
     post = [] ∧ result r = Exc e) ∧
  (∀ e, result r = Exc e →
     (∃ k, e = KeyError k ∧ missing_key ty data = Some k ∧
           visited r = [] ∧ final r = s) ∨
     (∃ pre v, visited r = pre ++ [v] ∧ did v = Raised e)) ∧
  self (final r) = self (final (update_state ty data s)).
Proof.
  intros r. subst r. split_and!; [| |apply dispatch_self].
  - intros pre v post e E Hv.
    pose proof (dispatch_spec ty data s) as Hd. simpl in Hd.
    destruct (missing_key ty data) as [k|].
    { rewrite Hd in E. by destruct pre. }
    destruct Hd as (_ & Ht & Ho & _).
    assert (post = []) as ->.
    { eapply Trail_after_stop; [done..|]. unfold stops. by rewrite Hv. }
    split; [done|]. by rewrite Ho, E, outcome_snoc, Hv.
  - intros e He.
    pose proof (dispatch_spec ty data s) as Hd. simpl in Hd.
    destruct (missing_key ty data) as [k|].
    { left. exists k. rewrite Hd in He |- *. simpl in *. by injection He as <-. }
    right. destruct Hd as (_ & _ & Ho & _). rewrite Ho in He.
    unfold outcome in He. destruct (last _) as [v|] eqn:El; [|done].
    apply last_Some in El as [pre Hpre]. exists pre, v. split; [done|].
    destruct (did v); try done. by injection He as ->.
Qed.


(** The mouse events other than the drag are hit-tested against the
    pointer position the dispatcher holds, not against a point of their own
    payload: a listener visited is invoked exactly when its target touches
    that position at that moment. *)
Theorem mouse_listeners_hit_tested ty data (s : State) :
  ty ∈ [MouseMotionEvent; MousePressEvent; MouseReleaseEvent; MouseScrollEvent] →
  let r := dispatch ty data s in
  ∀ v, v ∈ visited r →
       ran v = is_point_touching (seen v) (mobject (who v))
                 (get_mouse_point (self (final r))).
Proof.
  intros Hty r v. subst r.
  pose proof (dispatch_spec ty data s) as Hd. simpl in Hd.
  destruct (missing_key ty data) as [k|].
  { rewrite Hd. simpl. by intros ?%elem_of_nil. }
  destruct Hd as (-> & _ & _ & Hran).
  assert (hit_tested ty = true) as Hyes.
  { repeat (apply elem_of_cons in Hty as [->|Hty]); try done.
    by apply elem_of_nil in Hty. }
  rewrite Hyes in Hran. apply Hran.
Qed.

(** A dispatch that has no listener to walk is no error: it makes its
    state update, visits nothing, returns [None] and leaves the scene. *)
Theorem dispatch_without_listeners ty data (s : State) :
  candidates ty (self s) = [] →
  missing_key ty data = None →
  let r := dispatch ty data s in
  result r = Val PyNone ∧ visited r = [] ∧ scene (final r) = scene s ∧
  self (final r) = self (final (update_state ty data s)).
Proof.
  intros Hnone Hkey r. subst r.
  pose proof (dispatch_spec ty data s) as Hd. simpl in Hd.
  rewrite Hkey, Hnone in Hd. destruct Hd as (Hself & Ht & Ho & _).
  apply Trail_nil in Ht.
  split_and!; [by rewrite Ho, Ht|done| |done].
  by rewrite dispatch_scene, Ht.
Qed.

(** ** Sequences of calls, continued *)

Lemma run_ops_cons (o : Op Mobject Callback) ops (s : State) :
  run_ops (o :: ops) s = run_ops ops (run_op o s).
Proof. reflexivity. Qed.


(** [get_mouse_drag_point] returns the point of the last drag dispatched
    with a [point]; a motion does not move it, as a drag does not move the
    pointer position. *)
Theorem drag_point_follows_drag (ops : list (Op Mobject Callback)) (s : State) :
  get_mouse_drag_point (self (run_ops ops s)) =
    drag_point_after (mouse_drag_point (self s)) ops.
Proof.
  unfold get_mouse_drag_point, drag_point_after.
  revert s. induction ops as [|o ops IH]; intros s; [done|].
  rewrite run_ops_cons, IH. cbn [foldl]. f_equal.
  destruct o as [el|el|ty data]; simpl.
  - done.
  - by destruct (remove_listener_spec el s) as (_ & _ & _ & _ & -> & _).
  - rewrite dispatch_self.
    destruct (update_state_fields ty data s) as (_ & -> & _).
    by destruct ty, (point data).
Qed.

(** The keys held are those of the key presses and releases dispatched
    with a [symbol], taken in order as insertions into and deletions from a
    set: a key pressed twice is released by one release, and nothing else
    that is called, no callback either, changes what [is_key_pressed]
    answers. *)
Theorem keys_follow_key_events (ops : list (Op Mobject Callback)) (s : State) :
  pressed_keys (self (run_ops ops s)) = keys_after (pressed_keys (self s)) ops ∧
  ∀ k, is_key_pressed k (self (run_ops ops s)) =
       bool_decide (k ∈ keys_after (pressed_keys (self s)) ops).
Proof.
  assert (pressed_keys (self (run_ops ops s)) =
          keys_after (pressed_keys (self s)) ops) as Hkeys.
  { unfold keys_after.
    revert s. induction ops as [|o ops IH]; intros s; [done|].
    rewrite run_ops_cons, IH. cbn [foldl]. f_equal.
    destruct o as [el|el|ty data]; simpl.
    - done.
    - by destruct (remove_listener_spec el s) as (_ & _ & _ & _ & _ & -> & _).
    - rewrite dispatch_self.
      destruct (update_state_fields ty data s) as (_ & _ & -> & _).
      by destruct ty, (symbol data). }
  split; [done|]. intros k. unfold is_key_pressed. by rewrite Hkeys.
Qed.


End Properties.

(** * Properties of the frame comparison *)

Section FrameComparison.

Import GraphicalUnitTester.

(** The indices of a shape are the lists of coordinates each below its
    dimension. *)
Lemma indices_spec (sh idx : list nat) :
  idx ∈ indices sh ↔ Forall2 lt idx sh.
Proof.
  revert idx. induction sh as [|n sh IH]; intros idx; simpl.
  - rewrite list_elem_of_singleton. split; [by intros ->|].
    by intros ->%Forall2_nil_inv_r.
  - rewrite list_elem_of_bind. split.
    + intros (i & (rest & -> & Hrest)%list_elem_of_fmap & Hi%elem_of_seq).
      apply Forall2_cons. split; [lia|by apply IH].
    + intros H. apply Forall2_cons_inv_r in H as (i & rest & Hi & Hrest & ->).
      exists i. split.
      * apply list_elem_of_fmap. exists rest. split; [done|by apply IH].
      * apply elem_of_seq. lia.
Qed.

Lemma isclose_spec atol a b :
  isclose atol a b = true ↔ (inject_Z (Z.abs (a - b)) <= atol)%Q.
Proof. apply Qle_bool_iff. Qed.

Lemma existsb_false_iff {A} (f : A → bool) (l : list A) :
  existsb f l = false ↔ ∀ x, x ∈ l → f x = false.
Proof.
  induction l as [|y l IH]; simpl.
  - split; [by intros _ x ?%elem_of_nil|done].
  - rewrite orb_false_iff, IH. split.
    + intros [Hy Hl] x [->|Hx]%elem_of_cons; auto.
    + intros Hall. split; [apply Hall; left|]. intros x Hx. apply Hall. by right.
Qed.

Lemma filter_first {A} (f : A → bool) (l : list A) x rest :
  filter (λ y, f y = true) l = x :: rest →
  ∃ pre post, l = pre ++ x :: post ∧ f x = true ∧ ∀ y, y ∈ pre → f y = false.
Proof.
  induction l as [|y l IH]; [done|]. rewrite filter_cons.
  destruct (decide (f y = true)) as [Hy|Hy].
  - intros [= -> <-]. exists [], l. split_and!; [done|done|].
    by intros z ?%elem_of_nil.
  - intros (pre & post & -> & Hx & Hpre)%IH. exists (y :: pre), post.
    split_and!; [done|done|].
    intros z [->|Hz]%elem_of_cons; [by destruct (f y)|by apply Hpre].
Qed.

Lemma filter_nonempty {A} (f : A → bool) (l : list A) :
  existsb f l = true → filter (λ y, f y = true) l ≠ [].
Proof.
  induction l as [|y l IH]; simpl; [done|]. rewrite filter_cons.
  destruct (decide (f y = true)) as [Hy|Hy]; [done|].
  destruct (f y); [done|]. simpl. apply IH.
Qed.

Lemma no_mismatch_spec (atol : Q) (a b : Array) (sh : list nat) :
  existsb (mismatch atol a b) (indices sh) = false ↔
  ∀ idx, Forall2 lt idx sh →
    (inject_Z (Z.abs (item a idx - item b idx)) <= atol)%Q.
Proof.
  rewrite existsb_false_iff. unfold mismatch.
  split; intros Hall idx Hidx.
  - apply isclose_spec, negb_false_iff, Hall. by apply indices_spec.
  - apply negb_false_iff, isclose_spec, Hall. by apply indices_spec.
Qed.

Lemma passes_any (self : Tester) (show_diff : bool) :
  raised (test self show_diff) = None ↔
  ∃ expected,
    control self = Some expected ∧
    shape (frame self) = shape expected ∧
    existsb (mismatch (rgb_atol self) (frame self) expected)
            (indices (shape (frame self))) = false.
Proof.
  unfold test, _load_data. destruct (control self) as [expected|]; simpl.
  2: { split; [done|]. by intros (? & ? & _). }
  destruct (decide (shape (frame self) = shape expected)) as [Hsh|Hsh].
  2: { split; [done|]. intros (e & [= <-] & ? & _). done. }
  destruct (existsb _ _) eqn:Hany.
  - split; [by destruct (filter _ _)|].
    intros (e & [= <-] & _ & Hnone). congruence.
  - split; [|done]. intros _. by exists expected.
Qed.



(** When the frames differ, the index reported is that of the first
    pixel, in row order, a channel of which is off by more than the
    tolerance: it is the first two coordinates of the first unmatched index
    in C order, and the two points reported are the two frames at that
    pixel; the difference is shown when it was asked for. *)
Theorem test_reports_first_mismatch (self : Tester) (show_diff : bool) idx p ep :
  raised (test self show_diff) = Some (AssertionError (FramesDiffer idx p ep)) →
  ∃ expected pre first post,
    control self = Some expected ∧
    shape (frame self) = shape expected ∧
    indices (shape (frame self)) = pre ++ first :: post ∧
    mismatch (rgb_atol self) (frame self) expected first = true ∧
    (∀ x, x ∈ pre → mismatch (rgb_atol self) (frame self) expected x = false) ∧
    idx = take 2 first ∧
    p = subarray (frame self) idx ∧
    ep = subarray expected idx ∧
    diff_shown (test self show_diff) = show_diff.
Proof.
  unfold test, _load_data. destruct (control self) as [expected|]; [|done].
  simpl. destruct (decide (shape (frame self) = shape expected)) as [Hsh|Hsh];
    [|done].
  destruct (existsb _ _); [|done].
  destruct (filter _ _) as [|first rest] eqn:Hf; [done|].
  simpl. intros [= <- <- <-].
  apply filter_first in Hf as (pre & post & Hl & Hfirst & Hpre).
  by exists expected, pre, first, post.
Qed.

(** The comparison has no relative tolerance, so it does not matter which
    of the two frames is the expected one. *)
Theorem test_symmetric (a b : Array) (atol : Q) (show_diff show_diff' : bool) :
  raised (test (mkTester a (Some b) atol) show_diff) = None ↔
  raised (test (mkTester b (Some a) atol) show_diff') = None.
Proof.
  rewrite !passes_any. setoid_rewrite no_mismatch_spec. simpl.
  assert (∀ x y : Array, ∀ idx,
            Z.abs (item x idx - item y idx) = Z.abs (item y idx - item x idx))
    as Hswap by (intros; lia).
  split; intros (e & [= <-] & Hsh & Hall); eexists; (split_and!; [done|done|]);
    intros idx Hidx; rewrite Hswap; apply Hall; congruence.
Qed.

(** A test that passes still passes with a larger tolerance. *)
Theorem test_monotone (a : Array) (c : option Array) (atol atol' : Q)
    (show_diff show_diff' : bool) :
  (atol <= atol')%Q →
  raised (test (mkTester a c atol) show_diff) = None →
  raised (test (mkTester a c atol') show_diff') = None.
Proof.
  intros Hle. rewrite !passes_any. setoid_rewrite no_mismatch_spec. simpl.
  intros (e & Hc & Hsh & Hall). exists e. split_and!; [done|done|].
  intros idx Hidx. eapply Qle_trans; [by apply Hall|done].
Qed.


(** [test] shows the difference only when asked and only when the frames
    have the same shape and differ; and the [incorrect_indices[0]] of line
    135 never raises [IndexError]. *)
Theorem test_shows_diff_on_mismatch (self : Tester) (show_diff : bool) :
  raised (test self show_diff) ≠ Some IndexError ∧
  (diff_shown (test self show_diff) = true ↔
   show_diff = true ∧
   ∃ idx p ep,
     raised (test self show_diff) = Some (AssertionError (FramesDiffer idx p ep))).
Proof.
  unfold test, _load_data. destruct (control self) as [expected|]; simpl.
  2: { split; [done|]. split; [done|]. by intros (_ & ? & ? & ? & ?). }
  destruct (decide (shape (frame self) = shape expected)) as [Hsh|Hsh].
  2: { split; [done|]. split; [done|]. by intros (_ & ? & ? & ? & ?). }
  destruct (existsb _ _) eqn:Hany.
  2: { split; [done|]. split; [done|]. by intros (_ & ? & ? & ? & ?). }
  apply filter_nonempty in Hany.
  destruct (filter _ _) as [|first rest]; [done|]. simpl.
  split; [done|]. split; [by eauto 10|]. by intros [-> _].
Qed.

End FrameComparison.

(** * The properties on the stage *)

Import Stage.

(** C1 on the stage: three listeners of [KeyPressEvent] returning [True],
    [False] and [None]; the second ends the dispatch. *)
Lemma dispatch_stop_propagation_witness :
  let r := Stage.dispatch KeyPressEvent (with_symbol 97%Z) true_false_none in
  invoked (visited r) = [key_true; key_false] ∧
  result r = Val (PyBool false) ∧
  PyBool false = last_returned (visited r).
Proof.
  intros r.
  destruct (dispatch_stop_propagation Stage.is_point_touching Stage.call
              KeyPressEvent (with_symbol 97%Z) true_false_none)
    as (_ & Hstop & _ & Hlast & _).
  assert (result r = Val (PyBool false)) as Hr.
  { refine (proj2 (Hstop [mkVisit key_true 0%nat (Returned (PyBool true))]
                         (mkVisit key_false 1%nat (Returned (PyBool false)))
                         [] _ _)).
    - vm_compute. reflexivity.
    - reflexivity. }
  split; [vm_compute; reflexivity|].
  split; [exact Hr|]. exact (Hlast _ Hr).
Defined.

(** C1, as worded, fails: two listeners of [KeyPressEvent], the first
    returning [True] and the second [None]; the dispatch returns [None],
    not the last value that is not [None]. *)
Lemma last_non_null_counterexample :
  let r := Stage.dispatch KeyPressEvent (with_symbol 97%Z) true_then_none in
  returned <$> visited r = [PyBool true; PyNone] ∧
  result r = Val PyNone ∧
  last_non_null (visited r) = PyBool true ∧
  result r ≠ Val (last_non_null (visited r)).
Proof.
  vm_compute. split_and!; try reflexivity. discriminate.
Qed.

(** C2, as worded, fails: the pointer still at the origin, on [T1], and a
    press whose payload says (5, 5), off [T1]; the listener on [T1] is
    captured. *)
Lemma press_payload_counterexample :
  let s' := final (Stage.dispatch MousePressEvent (at_point p5) one_drag) in
  draggable_object_listeners (self s') = [drag_none] ∧
  filter (λ l, Stage.is_point_touching (scene one_drag) (mobject l) p5 = true)
         (event_listeners (self one_drag) MouseDragEvent) = [] ∧
  draggable_object_listeners (self s') ≠
    filter (λ l, Stage.is_point_touching (scene one_drag) (mobject l) p5 = true)
           (event_listeners (self one_drag) MouseDragEvent).
Proof.
  vm_compute. split_and!; try reflexivity. discriminate.
Qed.

(** C3 on the stage, with [T1], (0, 0) and (5, 5). *)
Lemma press_scenario_witness :
  (∀ w, Stage.is_point_touching w T1 p0 = true) ∧
  (∀ w, Stage.is_point_touching w T1 p5 = false) ∧
  let r1 := Stage.dispatch MouseMotionEvent (at_point p0) one_press in
  let r2 := Stage.dispatch MousePressEvent (at_point p0) (final r1) in
  let r3 := Stage.dispatch MousePressEvent (at_point p5) (final r2) in
  let r4 := Stage.dispatch MouseMotionEvent (at_point p5) (final r2) in
  let r5 := Stage.dispatch MousePressEvent (at_point p5) (final r4) in
  mouse_point (self (final r1)) = p0 ∧ visited r1 = [] ∧
  invoked (visited r2) = [L1] ∧
  invoked (visited r3) = [L1] ∧
  invoked (visited r5) = [].
Proof.
  assert (∀ w, Stage.is_point_touching w T1 p0 = true) as Hin
    by (intros w; reflexivity).
  assert (∀ w, Stage.is_point_touching w T1 p5 = false) as Hout
    by (intros w; reflexivity).
  split; [exact Hin|]. split; [exact Hout|].
  exact (press_scenario Stage.is_point_touching Stage.call
           T1 SayNothing p0 p5 0%nat Hin Hout).
Defined.

(** C3, as worded, fails at its last step: after the motion and the press
    at (0, 0), the press at (5, 5) invokes [L1] again. *)
Lemma press_scenario_counterexample :
  let r1 := Stage.dispatch MouseMotionEvent (at_point p0) one_press in
  let r2 := Stage.dispatch MousePressEvent (at_point p0) (final r1) in
  let r3 := Stage.dispatch MousePressEvent (at_point p5) (final r2) in
  Stage.is_point_touching (scene (final r2)) T1 p0 = true ∧
  Stage.is_point_touching (scene (final r2)) T1 p5 = false ∧
  mouse_point (self (final r1)) = p0 ∧
  invoked (visited r2) = [L1] ∧
  invoked (visited r3) = [L1].
Proof.
  vm_compute. split_and!; reflexivity.
Qed.

(** C4 on the stage: two listeners captured on [T1], and a drag and a
    motion at (5, 5), off [T1]. *)
Lemma drag_sticky_motion_retested_witness :
  let s := captured drag_true drag_none in
  let r := Stage.dispatch MouseDragEvent (at_point p5) s in
  point (at_point p5) = Some p5 ∧
  draggable_object_listeners (self s) = [drag_true] ++ drag_none :: [] ∧
  (∀ v, v ∈ take (length [drag_true]) (visited r) → stops v = false) ∧
  (∀ w, Stage.is_point_touching w (mobject drag_none) p5 = false) ∧
  drag_none ∈ invoked (visited r) ∧
  drag_none ∉ invoked (visited (Stage.dispatch MouseMotionEvent (at_point p5) s)).
Proof.
  intros s r.
  assert (point (at_point p5) = Some p5) as Hq by reflexivity.
  assert (draggable_object_listeners (self s) = [drag_true] ++ drag_none :: [])
    as Hcap by (vm_compute; reflexivity).
  assert (∀ v, v ∈ take (length [drag_true]) (visited r) → stops v = false)
    as Hbefore.
  { replace (visited r)
      with [mkVisit drag_true 0%nat (Returned (PyBool true));
            mkVisit drag_none 1%nat (Returned PyNone)]
      by (vm_compute; reflexivity).
    intros v Hv. apply list_elem_of_singleton in Hv as ->. reflexivity. }
  assert (∀ w, Stage.is_point_touching w (mobject drag_none) p5 = false) as Hout
    by (intros w; reflexivity).
  destruct (drag_sticky_motion_retested Stage.is_point_touching Stage.call
              s p5 (at_point p5) Hq) as (Hdrag & _ & Hmotion).
  split_and!;
    [exact Hq|exact Hcap|exact Hbefore|exact Hout
    |exact (Hdrag [drag_true] drag_none [] Hcap Hbefore)
    |exact (Hmotion drag_none Hout)].
Defined.

(** C4, as worded, fails: two listeners captured, the first returning
    [False]; the drag stops there and the second, though captured, is not
    invoked. *)
Lemma drag_stop_counterexample :
  let s := captured drag_false drag_true in
  let r := Stage.dispatch MouseDragEvent (at_point p5) s in
  draggable_object_listeners (self s) = [drag_false; drag_true] ∧
  invoked (visited r) = [drag_false] ∧
  result r = Val (PyBool false) ∧
  drag_true ∈ draggable_object_listeners (self s) ∧
  drag_true ∉ invoked (visited r).
Proof.
  intros s r.
  assert (draggable_object_listeners (self s) = [drag_false; drag_true]) as Hs
    by (vm_compute; reflexivity).
  assert (invoked (visited r) = [drag_false]) as Hr by (vm_compute; reflexivity).
  split_and!; [done|done|vm_compute; reflexivity|..].
  - rewrite Hs. right. left.
  - rewrite Hr. intros Hin. apply list_elem_of_singleton in Hin. discriminate.
Qed.

(** C5 on the stage: a release after a capture, then a motion, an
    [add_listener] and a key press, then a drag. *)
Lemma release_clears_capture_witness :
  let s := captured drag_true drag_none in
  let s1 := final (Stage.dispatch MouseReleaseEvent (at_point p0) s) in
  let r := Stage.dispatch MouseDragEvent (at_point p5)
             (Stage.run_ops between_release_and_drag s1) in
  (∀ o d, o ∈ between_release_and_drag → o ≠ Dispatch MousePressEvent d) ∧
  point (at_point p5) = Some p5 ∧
  draggable_object_listeners (self s) = [drag_true; drag_none] ∧
  draggable_object_listeners (self s1) = [] ∧
  visited r = [] ∧ result r = Val PyNone.
Proof.
  intros s s1 r.
  assert (∀ o d, o ∈ between_release_and_drag → o ≠ Dispatch MousePressEvent d)
    as Hops.
  { intros o d Ho. unfold between_release_and_drag in Ho.
    repeat (apply elem_of_cons in Ho as [->|Ho]); try discriminate.
    by apply elem_of_nil in Ho. }
  assert (point (at_point p5) = Some p5) as Hq by reflexivity.
  destruct (release_clears_capture Stage.is_point_touching Stage.call
              (at_point p0) s between_release_and_drag (at_point p5) p5)
    as (Hnone & Hdrag).
  destruct (Hdrag Hops Hq) as (Hv & Hres).
  split_and!;
    [exact Hops|exact Hq|vm_compute; reflexivity|exact Hnone|exact Hv|exact Hres].
Defined.

(** C6 on the stage: an entry registered once, and one not registered. *)
Lemma add_then_remove_witness :
  let r := remove_listener key_true (final (add_listener key_true true_then_none)) in
  occurrences key_true (event_listeners (self true_then_none) KeyPressEvent) = 1 ∧
  get_listeners_count (self true_then_none) = 2 ∧
  get_listeners_count (self (final r)) + 1 = 2 ∧
  (key_false ∉ event_listeners (self true_then_none) (event_type key_false)) ∧
  get_listeners_count
    (self (final (remove_listener key_false
                    (final (add_listener key_false true_then_none))))) =
    get_listeners_count (self true_then_none).
Proof.
  intros r.
  assert (key_false ∉ event_listeners (self true_then_none) (event_type key_false))
    as Hnew.
  { replace (event_listeners (self true_then_none) (event_type key_false))
      with [key_true; key_none] by (vm_compute; reflexivity).
    intros Hin. apply elem_of_cons in Hin as [Hin|Hin]; [discriminate|].
    apply list_elem_of_singleton in Hin. discriminate. }
  destruct (add_then_remove key_true true_then_none) as (_ & Hcount & _).
  destruct (add_then_remove key_false true_then_none) as (_ & _ & Hback).
  split_and!;
    [vm_compute; reflexivity|vm_compute; reflexivity|exact Hcount
    |exact Hnew|exact (Hback Hnew)].
Defined.

(** C6, as worded, fails: an entry registered once, added again and then
    removed; both copies go, and the count ends below its value before the
    add. *)
Lemma add_then_remove_counterexample :
  let s := final (add_listener key_true Stage.fresh) in
  let s' := final (remove_listener key_true (final (add_listener key_true s))) in
  get_listeners_count (self s) = 1 ∧
  get_listeners_count (self s') = 0 ∧
  get_listeners_count (self s') ≠ get_listeners_count (self s).
Proof.
  vm_compute. split_and!; try reflexivity. discriminate.
Qed.

(** C7 on the stage: removing an entry that was never added. *)
Lemma remove_absent_is_noop_witness :
  (key_false ∉ event_listeners (self true_then_none) (event_type key_false)) ∧
  remove_listener key_false true_then_none = mkRun (Val tt) true_then_none [] ∧
  get_listeners_count (self (final (remove_listener key_false true_then_none))) =
    get_listeners_count (self true_then_none).
Proof.
  assert (key_false ∉ event_listeners (self true_then_none) (event_type key_false))
    as Hnew.
  { replace (event_listeners (self true_then_none) (event_type key_false))
      with [key_true; key_none] by (vm_compute; reflexivity).
    intros Hin. apply elem_of_cons in Hin as [Hin|Hin]; [discriminate|].
    apply list_elem_of_singleton in Hin. discriminate. }
  destruct (remove_absent_is_noop key_false true_then_none Hnew) as (_ & Hrun & Hcount).
  split_and!; [exact Hnew|exact Hrun|exact Hcount].
Defined.

(** C8 on the stage, with the key 97. *)
Lemma key_press_release_witness :
  let s1 := final (Stage.dispatch KeyPressEvent (with_symbol 97%Z) Stage.fresh) in
  let s2 := final (Stage.dispatch KeyReleaseEvent (with_symbol 97%Z) s1) in
  symbol (with_symbol 97%Z) = Some 97%Z ∧
  is_key_pressed 97%Z (self Stage.fresh) = false ∧
  is_key_pressed 97%Z (self s1) = true ∧
  is_key_pressed 97%Z (self s2) = false ∧
  update_state Stage.is_point_touching KeyReleaseEvent (with_symbol 97%Z) Stage.fresh =
    mkRun (Val tt) Stage.fresh [] ∧
  self (final (Stage.dispatch KeyReleaseEvent (with_symbol 97%Z) Stage.fresh)) =
    self Stage.fresh.
Proof.
  intros s1 s2.
  assert (symbol (with_symbol 97%Z) = Some 97%Z) as Hk by reflexivity.
  assert (is_key_pressed 97%Z (self Stage.fresh) = false) as Hfree
    by (vm_compute; reflexivity).
  destruct (key_press_release Stage.is_point_touching Stage.call
              97%Z (with_symbol 97%Z) (with_symbol 97%Z) Stage.fresh Hk Hk)
    as (Hheld & Hreleased & Hnoop).
  destruct (Hnoop Stage.fresh Hfree) as (Hu & Hself & _).
  split_and!;
    [exact Hk|exact Hfree|exact Hheld|exact Hreleased|exact Hu|exact Hself].
Defined.

(** C9 on the stage: a motion without [point], a key release without
    [symbol]. *)
Lemma dispatch_missing_field_witness :
  (MouseMotionEvent = MouseMotionEvent ∨ MouseMotionEvent = MouseDragEvent) ∧
  point no_data = None ∧
  Stage.dispatch MouseMotionEvent no_data one_press =
    mkRun (Exc (KeyError "point")) one_press [] ∧
  (KeyReleaseEvent = KeyPressEvent ∨ KeyReleaseEvent = KeyReleaseEvent) ∧
  symbol (at_point p0) = None ∧
  Stage.dispatch KeyReleaseEvent (at_point p0) one_press =
    mkRun (Exc (KeyError "symbol")) one_press [].
Proof.
  destruct (dispatch_missing_field Stage.is_point_touching Stage.call
              MouseMotionEvent no_data one_press) as (Hpoint & _).
  destruct (dispatch_missing_field Stage.is_point_touching Stage.call
              KeyReleaseEvent (at_point p0) one_press) as (_ & Hsymbol).
  split_and!;
    [left; reflexivity|reflexivity|exact (Hpoint (or_introl eq_refl) eq_refl)
    |right; reflexivity|reflexivity|exact (Hsymbol (or_intror eq_refl) eq_refl)].
Defined.

(** C10 on the stage: a press at (5, 5) before any motion captures the
    listener on [T1], which touches the origin. *)
Lemma press_before_motion_witness :
  let s := Stage.run_ops before_motion Stage.fresh in
  (∀ o d, o ∈ before_motion → o ≠ Dispatch MouseMotionEvent d) ∧
  draggable_object_listeners
    (self (final (Stage.dispatch MousePressEvent (at_point p5) s))) =
    filter (λ l, Stage.is_point_touching (scene s) (mobject l) origin = true)
           (event_listeners (self s) MouseDragEvent) ∧
  filter (λ l, Stage.is_point_touching (scene s) (mobject l) origin = true)
         (event_listeners (self s) MouseDragEvent) = [drag_none].
Proof.
  intros s.
  assert (∀ o d, o ∈ before_motion → o ≠ Dispatch MouseMotionEvent d) as Hops.
  { intros o d Ho. unfold before_motion in Ho.
    repeat (apply elem_of_cons in Ho as [->|Ho]); try discriminate.
    by apply elem_of_nil in Ho. }
  destruct (press_before_motion Stage.is_point_touching Stage.call
              0%nat before_motion (at_point p5)) as (_ & _ & _ & _ & Hpress).
  split_and!; [exact Hops|exact (Hpress Hops)|vm_compute; reflexivity].
Defined.

(** * The further properties on the stage *)

(** The round trip, with an entry that is not registered. *)
Lemma add_remove_round_trip_witness :
  let s' := final (remove_listener key_false
                     (final (add_listener key_false true_then_none))) in
  (key_false ∉ event_listeners (self true_then_none) (event_type key_false)) ∧
  event_listeners (self s') KeyPressEvent = [key_true; key_none] ∧
  scene s' = scene true_then_none.
Proof.
  intros s'.
  assert (key_false ∉ event_listeners (self true_then_none) (event_type key_false))
    as Hnew.
  { replace (event_listeners (self true_then_none) (event_type key_false))
      with [key_true; key_none] by (vm_compute; reflexivity).
    intros Hin. apply elem_of_cons in Hin as [Hin|Hin]; [discriminate|].
    apply list_elem_of_singleton in Hin. discriminate. }
  destruct (add_remove_round_trip key_false true_then_none Hnew)
    as (Hreg & _ & _ & _ & _ & Hscene).
  split_and!; [exact Hnew|exact (Hreg KeyPressEvent)|exact Hscene].
Defined.

(** The capture through a removal, an addition, a motion, a drag and a key
    press. *)
Lemma capture_changes_on_press_and_release_witness :
  let s := captured drag_true drag_none in
  (∀ o d, o ∈ while_captured →
          o ≠ Dispatch MousePressEvent d ∧ o ≠ Dispatch MouseReleaseEvent d) ∧
  draggable_object_listeners (self s) = [drag_true; drag_none] ∧
  draggable_object_listeners (self (Stage.run_ops while_captured s)) =
    draggable_object_listeners (self s).
Proof.
  intros s.
  assert (∀ o d, o ∈ while_captured →
                 o ≠ Dispatch MousePressEvent d ∧ o ≠ Dispatch MouseReleaseEvent d)
    as Hops.
  { intros o d Ho. unfold while_captured in Ho.
    repeat (apply elem_of_cons in Ho as [->|Ho]); try (split; discriminate).
    by apply elem_of_nil in Ho. }
  split_and!;
    [exact Hops|vm_compute; reflexivity
    |exact (capture_changes_on_press_and_release Stage.is_point_touching Stage.call
              while_captured s Hops)].
Defined.

(** A captured listener, removed, and dragged all the same. *)
Lemma removed_listener_still_dragged_witness :
  let s := captured drag_true drag_none in
  let s1 := final (remove_listener drag_none s) in
  let r := Stage.dispatch MouseDragEvent (at_point p5) s1 in
  draggable_object_listeners (self s) = [drag_true] ++ drag_none :: [] ∧
  point (at_point p5) = Some p5 ∧
  (∀ v, v ∈ take (length [drag_true]) (visited r) → stops v = false) ∧
  event_listeners (self s1) MouseDragEvent = [drag_true] ∧
  occurrences drag_none (event_listeners (self s1) (event_type drag_none)) = 0 ∧
  drag_none ∈ invoked (visited r).
Proof.
  intros s s1 r.
  assert (draggable_object_listeners (self s) = [drag_true] ++ drag_none :: [])
    as Hcap by (vm_compute; reflexivity).
  assert (point (at_point p5) = Some p5) as Hq by reflexivity.
  assert (∀ v, v ∈ take (length [drag_true]) (visited r) → stops v = false)
    as Hbefore.
  { replace (visited r)
      with [mkVisit drag_true 0%nat (Returned (PyBool true));
            mkVisit drag_none 1%nat (Returned PyNone)]
      by (vm_compute; reflexivity).
    intros v Hv. apply list_elem_of_singleton in Hv as ->. reflexivity. }
  destruct (removed_listener_still_dragged Stage.is_point_touching Stage.call
              s p5 (at_point p5) [drag_true] drag_none [] Hcap Hq Hbefore)
    as (Hgone & Hdragged).
  split_and!;
    [exact Hcap|exact Hq|exact Hbefore|vm_compute; reflexivity
    |exact Hgone|exact Hdragged].
Defined.

(** A callback that raises, before one that would return [True]. *)
Lemma callback_exception_propagates_witness :
  let r := Stage.dispatch KeyPressEvent (with_symbol 97%Z) fail_then_true in
  let v := mkVisit key_fail 0%nat (Raised (OtherError 1)) in
  visited r = [] ++ v :: [] ∧
  did v = Raised (OtherError 1) ∧
  result r = Exc (OtherError 1) ∧
  is_key_pressed 97%Z (self (final r)) = true.
Proof.
  intros r v.
  assert (visited r = [] ++ v :: []) as Hv by (vm_compute; reflexivity).
  assert (did v = Raised (OtherError 1)) as Hd by reflexivity.
  destruct (callback_exception_propagates Stage.is_point_touching Stage.call
              KeyPressEvent (with_symbol 97%Z) fail_then_true)
    as (Hstop & _ & _).
  split_and!;
    [exact Hv|exact Hd|exact (proj2 (Hstop [] v [] (OtherError 1) Hv Hd))
    |vm_compute; reflexivity].
Defined.


(** A press whose payload says (5, 5), the pointer being at the origin. *)
Lemma mouse_listeners_hit_tested_witness :
  let r := Stage.dispatch MousePressEvent (at_point p5) one_press in
  let v := mkVisit L1 0%nat (Returned PyNone) in
  MousePressEvent ∈ [MouseMotionEvent; MousePressEvent; MouseReleaseEvent;
                     MouseScrollEvent] ∧
  v ∈ visited r ∧
  ran v = Stage.is_point_touching (seen v) (mobject (who v))
            (get_mouse_point (self (final r))) ∧
  get_mouse_point (self (final r)) = origin.
Proof.
  intros r v.
  assert (MousePressEvent ∈ [MouseMotionEvent; MousePressEvent; MouseReleaseEvent;
                             MouseScrollEvent]) as Hty by (right; left).
  assert (v ∈ visited r) as Hv.
  { replace (visited r) with [v] by (vm_compute; reflexivity). left. }
  split_and!;
    [exact Hty|exact Hv
    |exact (mouse_listeners_hit_tested Stage.is_point_touching Stage.call
              MousePressEvent (at_point p5) one_press Hty v Hv)
    |vm_compute; reflexivity].
Defined.

(** A scroll, for which nothing is registered. *)
Lemma dispatch_without_listeners_witness :
  let r := Stage.dispatch MouseScrollEvent no_data true_then_none in
  candidates MouseScrollEvent (self true_then_none) = [] ∧
  missing_key MouseScrollEvent no_data = None ∧
  result r = Val PyNone ∧ visited r = [] ∧ scene (final r) = scene true_then_none.
Proof.
  intros r.
  assert (candidates MouseScrollEvent (self true_then_none) = []) as Hnone
    by (vm_compute; reflexivity).
  assert (missing_key MouseScrollEvent no_data = None) as Hkey by reflexivity.
  destruct (dispatch_without_listeners Stage.is_point_touching Stage.call
              MouseScrollEvent no_data true_then_none Hnone Hkey)
    as (Hr & Hv & Hs & _).
  split_and!; [exact Hnone|exact Hkey|exact Hr|exact Hv|exact Hs].
Defined.

(** * The frame comparison on small frames *)

Import GraphicalUnitTester.



(** The pixel of row 1, column 0 is the first that differs. *)
Lemma test_reports_first_mismatch_witness :
  let self := mkTester speck (Some black) 0 in
  raised (test self true) =
    Some (AssertionError
            (FramesDiffer [1; 0] [0; 3; 0; 255]%Z [0; 0; 0; 255]%Z)) ∧
  ∃ expected pre first post,
    control self = Some expected ∧
    shape (frame self) = shape expected ∧
    indices (shape (frame self)) = pre ++ first :: post ∧
    mismatch (rgb_atol self) (frame self) expected first = true ∧
    (∀ x, x ∈ pre → mismatch (rgb_atol self) (frame self) expected x = false) ∧
    [1; 0] = take 2 first ∧
    [0; 3; 0; 255]%Z = subarray (frame self) [1; 0] ∧
    [0; 0; 0; 255]%Z = subarray expected [1; 0] ∧
    diff_shown (test self true) = true.
Proof.
  intros self.
  assert (raised (test self true) =
            Some (AssertionError
                    (FramesDiffer [1; 0] [0; 3; 0; 255]%Z [0; 0; 0; 255]%Z)))
    as Hfail by (vm_compute; reflexivity).
  exact (conj Hfail (test_reports_first_mismatch self true _ _ _ Hfail)).
Defined.

(** The two frames, either way round. *)
Lemma test_symmetric_witness :
  raised (test (mkTester speck (Some black) 3) false) = None ∧
  raised (test (mkTester black (Some speck) 3) true) = None.
Proof.
  assert (raised (test (mkTester speck (Some black) 3) false) = None) as Hpass
    by (vm_compute; reflexivity).
  exact (conj Hpass (proj1 (test_symmetric speck black 3 false true) Hpass)).
Defined.

(** From a tolerance of 3 to one of 5. *)
Lemma test_monotone_witness :
  (3 <= 5)%Q ∧
  raised (test (mkTester speck (Some black) 3) false) = None ∧
  raised (test (mkTester speck (Some black) 5) false) = None.
Proof.
  assert (3 <= 5)%Q as Hle by (apply Qle_bool_iff; reflexivity).
  assert (raised (test (mkTester speck (Some black) 3) false) = None) as Hpass
    by (vm_compute; reflexivity).
  exact (conj Hle
           (conj Hpass
              (test_monotone speck (Some black) 3 5 false false Hle Hpass))).
Defined.


(** Frames that differ, with the difference asked for. *)
Lemma test_shows_diff_on_mismatch_witness :
  let self := mkTester speck (Some black) 0 in
  diff_shown (test self true) = true ∧
  raised (test self true) ≠ Some IndexError ∧
  ∃ idx p ep,
    raised (test self true) = Some (AssertionError (FramesDiffer idx p ep)).
Proof.
  intros self.
  assert (diff_shown (test self true) = true) as Hshown
    by (vm_compute; reflexivity).
  destruct (test_shows_diff_on_mismatch self true) as (Hsafe & Hiff).
  exact (conj Hshown (conj Hsafe (proj2 (proj1 Hiff Hshown)))).
Defined.
